(** * The [notices] command and the legacy subcommand bridge of anaconda-client

    A shallow embedding of [binstar_client/commands/notices.py] and of the
    mounting and delegation code of [binstar_client/plugins.py], with the
    properties their specification states.

    Layout: Python values and the JSON encoder, the effect monad, the
    notices command, the plugin bridge, sample environments, then the
    theorems.

    What lies outside the two files is a parameter: [json.loads], the file
    system, the API client, the legacy dispatcher [binstar_main], the
    process environment.  Each is given by its outcome, a value or an
    exception, and the statements hold for all of them. *)

From Stdlib Require Import ZArith String Ascii List Bool.
From stdpp Require Import base list strings gmap pretty.

Local Open Scope Z_scope.
Local Open Scope string_scope.

#[local] Set Warnings "-register-all".

(** ** Python values

    The values the command handles are the ones [json.loads] produces,
    plus [None].  A [str] is a [string] whose characters stand for the
    code points 0..255.  A [float] is carried as the text of its [repr]:
    the command only tests floats for truth and serialises them, and both
    are functions of that text.  A [dict] keeps its insertion order. *)

Inductive pyval : Type :=
| PyNone
| PyBool (b : bool)
| PyInt (n : Z)
| PyFloat (repr : string)
| PyStr (s : string)
| PyList (items : list pyval)
| PyDict (items : list (string * pyval)).

(** [bool(v)], the truth test behind [if v:]. *)
Definition truthy (v : pyval) : bool :=
  match v with
  | PyNone => false
  | PyBool b => b
  | PyInt n => negb (Z.eqb n 0)
  | PyFloat r => negb (String.eqb r "0.0" || String.eqb r "-0.0")
  | PyStr s => match s with EmptyString => false | String _ _ => true end
  | PyList l => match l with [] => false | _ :: _ => true end
  | PyDict d => match d with [] => false | _ :: _ => true end
  end.

(** [d.get(key)] on an insertion-ordered dict; an absent key gives [None]. *)
Fixpoint dict_get (d : list (string * pyval)) (key : string) : pyval :=
  match d with
  | [] => PyNone
  | (k, v) :: d' => if String.eqb k key then v else dict_get d' key
  end.

(** *** [json.dumps(v, indent=n)] *)

Definition dquote : string := String "034"%char EmptyString.
Definition newline : string := String "010"%char EmptyString.

Definition hex_digit (n : nat) : ascii :=
  match n with
  | 0%nat => "0" | 1%nat => "1" | 2%nat => "2" | 3%nat => "3"
  | 4%nat => "4" | 5%nat => "5" | 6%nat => "6" | 7%nat => "7"
  | 8%nat => "8" | 9%nat => "9" | 10%nat => "a" | 11%nat => "b"
  | 12%nat => "c" | 13%nat => "d" | 14%nat => "e" | _ => "f"
  end%char.

(** One character under [ensure_ascii=True]: the short escapes, printable
    ASCII as it is, anything else as a four-digit lower-case [\u] escape. *)
Definition escape_char (c : ascii) : string :=
  let n := nat_of_ascii c in
  if (n =? 34)%nat then "\" +:+ dquote
  else if (n =? 92)%nat then "\\"
  else if (n =? 10)%nat then "\n"
  else if (n =? 13)%nat then "\r"
  else if (n =? 9)%nat then "\t"
  else if (n =? 12)%nat then "\f"
  else if (n =? 8)%nat then "\b"
  else if ((32 <=? n) && (n <=? 126))%nat then String c EmptyString
  else "\u00" +:+ String (hex_digit (n / 16)) (String (hex_digit (n mod 16)) EmptyString).

Fixpoint escape_chars (s : string) : string :=
  match s with
  | EmptyString => EmptyString
  | String c s' => escape_char c +:+ escape_chars s'
  end.

Definition encode_basestring_ascii (s : string) : string :=
  dquote +:+ escape_chars s +:+ dquote.

(** [float.__repr__] with the three non-finite spellings of the encoder. *)
Definition encode_float (r : string) : string :=
  if String.eqb r "nan" then "NaN"
  else if String.eqb r "inf" then "Infinity"
  else if String.eqb r "-inf" then "-Infinity"
  else r.

Fixpoint spaces (n : nat) : string :=
  match n with
  | O => EmptyString
  | S n' => String " "%char (spaces n')
  end.

(** The encoder at nesting depth [level]: an empty container is [[]] or
    [{}]; otherwise every item sits on its own line, indented by
    [indent * (level + 1)] spaces, items separated by [","], keys from
    values by [": "], and the closing bracket on a line of its own. *)
Fixpoint iterencode (indent level : nat) (v : pyval) : string :=
  let newline_indent := newline +:+ spaces (indent * S level) in
  let closing := newline +:+ spaces (indent * level) in
  match v with
  | PyNone => "null"
  | PyBool true => "true"
  | PyBool false => "false"
  | PyInt n => pretty n
  | PyFloat r => encode_float r
  | PyStr s => encode_basestring_ascii s
  | PyList [] => "[]"
  | PyList (x :: xs) =>
      "[" +:+ newline_indent +:+ iterencode indent (S level) x
      +:+ (fix rest (l : list pyval) : string :=
             match l with
             | [] => EmptyString
             | y :: l' =>
                 "," +:+ newline_indent +:+ iterencode indent (S level) y +:+ rest l'
             end) xs
      +:+ closing +:+ "]"
  | PyDict [] => "{}"
  | PyDict ((k, x) :: xs) =>
      "{" +:+ newline_indent +:+ encode_basestring_ascii k +:+ ": "
      +:+ iterencode indent (S level) x
      +:+ (fix rest (l : list (string * pyval)) : string :=
             match l with
             | [] => EmptyString
             | (k', y) :: l' =>
                 "," +:+ newline_indent +:+ encode_basestring_ascii k' +:+ ": "
                 +:+ iterencode indent (S level) y +:+ rest l'
             end) xs
      +:+ closing +:+ "}"
  end.

Definition json_dumps (indent : nat) (v : pyval) : string :=
  iterencode indent 0 v.

(** ** Effects: exceptions and a state monad *)

Inductive exn : Type :=
| SystemExit (code : Z)
| BinstarError (message : string)
| TypeError (message : string)
| OSError (message : string)
| JSONDecodeError (message : string)
| OtherException (class message : string).

Inductive result (A : Type) : Type :=
| Ok (a : A)
| Raise (e : exn).
Arguments Ok {A} a.
Arguments Raise {A} e.

Inductive level : Type := ERROR | WARNING | INFO.

(** A computation over a mutable store [S] that returns or raises. *)
Definition M (S A : Type) : Type := S -> result A * S.

Definition ret {S A} (a : A) : M S A := fun s => (Ok a, s).
Definition raise {S A} (e : exn) : M S A := fun s => (Raise e, s).
Definition bind {S A B} (m : M S A) (k : A -> M S B) : M S B :=
  fun s => match m s with
           | (Ok a, s') => k a s'
           | (Raise e, s') => (Raise e, s')
           end.
Definition gets {S A} (f : S -> A) : M S A := fun s => (Ok (f s), s).
Definition modify {S} (f : S -> S) : M S unit := fun s => (Ok tt, f s).
(** The outcome of a call into a collaborator. *)
Definition answer {S A} (r : result A) : M S A := fun s => (r, s).

Declare Scope monad_scope.
Delimit Scope monad_scope with monad.
Notation "'let*' x := m 'in' k" := (bind m (fun x => k))
  (at level 10, x name, m at level 100, k at level 200) : monad_scope.
Notation "m >> k" := (bind m (fun _ => k))
  (at level 95, right associativity) : monad_scope.
Local Open Scope monad_scope.

(** The exit status of the process for an outcome of the command: a normal
    return is status 0, [SystemExit(n)] is status [n]; other exceptions are
    left to the caller of the command. *)
Definition exit_status {A} (r : result A) : option Z :=
  match r with
  | Ok _ => Some 0
  | Raise (SystemExit n) => Some n
  | Raise _ => None
  end.


(** ** [binstar_client/commands/notices.py] *)

Module Notices.

(** The operations of the API client the command calls. *)
Inductive api_call : Type :=
| check_server
| user_
| create_notices (account : pyval) (label : string) (payload : pyval)
| remove_notices (account : pyval) (label : string)
| notices_ (account : pyval) (label : string).

(** What the API client of this run answers to each operation: it returns
    or raises.  The client itself lives outside this module. *)
Record api_handle : Type := {
  on_check_server : result unit;
  on_user : result (list (string * pyval));
  on_create_notices : pyval -> string -> pyval -> result unit;
  on_remove_notices : pyval -> string -> result unit;
  on_notices : pyval -> string -> result pyval;
}.

(** The collaborators of the module: [json.loads], the file system behind
    [pathlib.Path], and [get_server_api(token, site, config=get_config(site))]
    of [binstar_client.utils].  [path.exists()] answers, or raises [OSError]
    for a name the system refuses, such as one over its length limit. *)
Record collaborators : Type := {
  json_loads : string -> result pyval;
  path_exists : string -> result bool;
  path_read : string -> result string;
  get_server_api : option string -> option string -> result api_handle;
}.

(** The argument namespace: [token] and [site] come from the parent parser,
    the next five from [add_parser], [api] is attached by [api_user]. *)
Record namespace : Type := {
  token : option string;
  site : option string;
  label : string;
  user : pyval;
  notices : pyval;
  remove : bool;
  get : bool;
  api : option api_handle;
}.

Inductive event : Type :=
| Log (logger : string) (lvl : level) (message : string)
| ParserError (message : string)
| Call (c : api_call).

(** The store: the namespace object every function receives and mutates,
    and what the run has emitted so far, oldest first. *)
Record state : Type := {
  args : namespace;
  trace : list event;
}.

Definition emit (e : event) : M state unit :=
  modify (fun st => {| args := args st; trace := (trace st ++ [e])%list |}).

Definition setattr (f : namespace -> namespace) : M state unit :=
  modify (fun st => {| args := f (args st); trace := trace st |}).

Definition set_notices (v : pyval) (a : namespace) : namespace :=
  {| token := token a; site := site a; label := label a; user := user a;
     notices := v; remove := remove a; get := get a; api := api a |}.
Definition set_user (v : pyval) (a : namespace) : namespace :=
  {| token := token a; site := site a; label := label a; user := v;
     notices := notices a; remove := remove a; get := get a; api := api a |}.
Definition set_label (v : string) (a : namespace) : namespace :=
  {| token := token a; site := site a; label := v; user := user a;
     notices := notices a; remove := remove a; get := get a; api := api a |}.
Definition set_remove (v : bool) (a : namespace) : namespace :=
  {| token := token a; site := site a; label := label a; user := user a;
     notices := notices a; remove := v; get := get a; api := api a |}.
Definition set_get (v : bool) (a : namespace) : namespace :=
  {| token := token a; site := site a; label := label a; user := user a;
     notices := notices a; remove := remove a; get := v; api := api a |}.
Definition set_api (v : api_handle) (a : namespace) : namespace :=
  {| token := token a; site := site a; label := label a; user := user a;
     notices := notices a; remove := remove a; get := get a; api := Some v |}.

(** [logger = logging.getLogger('binstar.notices')] *)
Definition logger : string := "binstar.notices".
Definition logger_error (message : string) : M state unit := emit (Log logger ERROR message).
Definition logger_info (message : string) : M state unit := emit (Log logger INFO message).

(** A call of an API operation: recorded, then answered. *)
Definition invoke {A} (c : api_call) (r : result A) : M state A :=
  emit (Call c) >> answer r.

(** [args.api]; the attribute is missing until [api_user] sets it. *)
Definition args_api : M state api_handle :=
  let* a := gets args in
  match api a with
  | Some h => ret h
  | None => raise (OtherException "AttributeError" "api")
  end.

Definition unresolved_owner : string :=
  "Unable to determine owner in user; please make sure you are logged in".
Definition not_a_string : string :=
  "Notices argument must be defined as a string".
Definition unreadable_file (error : string) : string :=
  "Unable to read provided JSON file: " +:+ error.
Definition invalid_json : string :=
  "Unable to parse provided JSON; please make sure it is valid JSON".

Section Command.
Context (W : collaborators).

(** The statements of the decorator's [inner] that come before
    [return func(args)]. *)
Definition resolve_session : M state unit :=
  let* a := gets args in
  let* h := answer (get_server_api W (token a) (site a)) in
  setattr (set_api h) >>
  invoke check_server (on_check_server h) >>
  let* a := gets args in
  match user a with
  | PyNone =>
      let* whoami := invoke user_ (on_user h) in
      setattr (set_user (dict_get whoami "login")) >>
      let* a := gets args in
      match user a with
      | PyNone => logger_error unresolved_owner >> raise (BinstarError unresolved_owner)
      | _ => ret tt
      end
  | _ => ret tt
  end.

(** [api_user(func)]: [inner], with [func] run on the same namespace
    object. *)
Definition api_user {A} (func : M state A) : M state A :=
  resolve_session >> func.

(** [NoticesAction.__call__(parser, namespace, values)] with
    [dest = 'notices'].  [pathlib.Path(values)] raises [TypeError] unless
    [values] is a [str].  [path.exists()] stands outside every [try]: what
    it raises leaves the action as it is. *)
Definition NoticesAction_call (values : pyval) : M state unit :=
  match values with
  | PyStr path =>
      let* found := answer (path_exists W path) in
      let* text :=
        (if found then
           match path_read W path with
           | Ok text => ret text
           | Raise (OSError error) =>
               logger_error (unreadable_file error) >> raise (SystemExit 1)
           | Raise e => raise e
           end
         else ret path) in
      match json_loads W text with
      | Ok data => setattr (set_notices data)
      | Raise (JSONDecodeError _) =>
          logger_error invalid_json >> raise (SystemExit 1)
      | Raise e => raise e
      end
  | _ => logger_error not_a_string >> raise (SystemExit 1)
  end.

(** The payload [NoticesAction] stores for a string argument, when it
    stores one. *)
Definition normalized (values : string) : option pyval :=
  match path_exists W values with
  | Ok found =>
      match (if found then path_read W values else Ok values) with
      | Ok text =>
          match json_loads W text with
          | Ok data => Some data
          | Raise _ => None
          end
      | Raise _ => None
      end
  | Raise _ => None
  end.

(** The undecorated body of [main]. *)
Definition main_body : M state unit :=
  let* a := gets args in
  if truthy (notices a) then
    let* h := args_api in
    invoke (create_notices (user a) (label a) (notices a))
           (on_create_notices h (user a) (label a) (notices a))
  else if remove a then
    let* h := args_api in
    invoke (remove_notices (user a) (label a))
           (on_remove_notices h (user a) (label a))
  else if get a then
    let* h := args_api in
    let* fetched := invoke (notices_ (user a) (label a))
                           (on_notices h (user a) (label a)) in
    logger_info (json_dumps 2 fetched)
  else ret tt.

(** [@api_user def main(args)] *)
Definition main : M state unit := api_user main_body.

(** *** The parser [add_parser] declares

    The three members of the mutually exclusive group. *)
Inductive action : Type := Create | Remove | Get.

(** An occurrence of one of the declared options on the command line,
    as the option scanner of [argparse] hands it to the parser. *)
Inductive occurrence : Type :=
| OptLabel (value : string)
| OptUser (value : string)
| OptCreate (value : string)
| OptRemove
| OptGet.

Definition group_action (o : occurrence) : option action :=
  match o with
  | OptCreate _ => Some Create
  | OptRemove => Some Remove
  | OptGet => Some Get
  | OptLabel _ | OptUser _ => None
  end.

Definition option_string (a : action) : string :=
  match a with
  | Create => "--create"
  | Remove => "--remove"
  | Get => "--get"
  end.

Definition action_eqb (a b : action) : bool :=
  match a, b with
  | Create, Create | Remove, Remove | Get, Get => true
  | _, _ => false
  end.

(** The other members of the group, in the order they were added. *)
Definition conflicts (a : action) : list action :=
  match a with
  | Create => [Remove; Get]
  | Remove => [Create; Get]
  | Get => [Create; Remove]
  end.

Definition seen_in (seen : list action) (a : action) : bool :=
  existsb (action_eqb a) seen.

(** [parser.error(message)]: usage and message on stderr, status 2. *)
Definition parser_error {A} (message : string) : M state A :=
  emit (ParserError message) >> raise (SystemExit 2).

(** The effect of an option once it is accepted. *)
Definition run_action (o : occurrence) : M state unit :=
  match o with
  | OptLabel v => setattr (set_label v)
  | OptUser v => setattr (set_user (PyStr v))
  | OptCreate v => NoticesAction_call (PyStr v)
  | OptRemove => setattr (set_remove true)
  | OptGet => setattr (set_get true)
  end.

(** [take_action]: a member of the group is refused when another member
    was seen before it; the check comes before the action runs. *)
Definition take_action (seen : list action) (o : occurrence) : M state (list action) :=
  match group_action o with
  | Some a =>
      match List.find (seen_in seen) (conflicts a) with
      | Some c =>
          parser_error ("argument " +:+ option_string a
                        +:+ ": not allowed with argument " +:+ option_string c)
      | None => run_action o >> ret (a :: seen)
      end
  | None => run_action o >> ret seen
  end.

Fixpoint consume (seen : list action) (occs : list occurrence) : M state unit :=
  match occs with
  | [] => ret tt
  | o :: rest => let* seen' := take_action seen o in consume seen' rest
  end.

(** The defaults of the five destinations. *)
Definition set_defaults (a : namespace) : namespace :=
  {| token := token a; site := site a; label := "main"; user := PyNone;
     notices := PyNone; remove := false; get := false; api := api a |}.

Definition parse_args (occs : list occurrence) : M state unit :=
  setattr set_defaults >> consume [] occs.

(** One invocation: parse, then the handler [set_defaults(main=main)]
    names. *)
Definition notices_command (occs : list occurrence) : M state unit :=
  parse_args occs >> main.

End Command.

(** Whether a member of the group occurs on the command line. *)
Definition selects (a : action) (o : occurrence) : bool :=
  match group_action o with
  | Some b => action_eqb a b
  | None => false
  end.

Definition supplied (a : action) (occs : list occurrence) : bool :=
  existsb (selects a) occs.

(** The argument of the last [--create] on the command line. *)
Fixpoint last_create (occs : list occurrence) : option string :=
  match occs with
  | [] => None
  | o :: rest =>
      match last_create rest, o with
      | Some v, _ => Some v
      | None, OptCreate v => Some v
      | None, _ => None
      end
  end.

(** The account [resolve_session] leaves in [args.user] when it returns:
    the one given, else the login of the caller. *)
Definition resolved_account (h : api_handle) (a : namespace) : option pyval :=
  match user a with
  | PyNone =>
      match on_user h with
      | Ok whoami =>
          match dict_get whoami "login" with
          | PyNone => None
          | login => Some login
          end
      | Raise _ => None
      end
  | account => Some account
  end.

(** The API calls [resolve_session] makes when nothing fails. *)
Definition session_calls (a : namespace) : list event :=
  match user a with
  | PyNone => [Call check_server; Call user_]
  | _ => [Call check_server]
  end.

(** What a trace says about the API. *)
Definition api_calls (t : list event) : list api_call :=
  omap (fun e => match e with Call c => Some c | _ => None end) t.

Definition created (t : list event) : list (pyval * string * pyval) :=
  omap (fun e => match e with
                 | Call (create_notices u l p) => Some (u, l, p)
                 | _ => None
                 end) t.

Definition is_notices_operation (c : api_call) : bool :=
  match c with
  | create_notices _ _ _ | remove_notices _ _ | notices_ _ _ => true
  | check_server | user_ => false
  end.

Definition is_mutation (c : api_call) : bool :=
  match c with
  | create_notices _ _ _ | remove_notices _ _ => true
  | _ => false
  end.

Definition logged (t : list event) : list (string * level * string) :=
  omap (fun e => match e with Log n l m => Some (n, l, m) | _ => None end) t.

(** The namespace the parent parser hands over, and a fresh store. *)
Definition fresh_namespace (tok st : option string) : namespace :=
  {| token := tok; site := st; label := "main"; user := PyNone;
     notices := PyNone; remove := false; get := false; api := None |}.

Definition fresh (tok st : option string) : state :=
  {| args := fresh_namespace tok st; trace := [] |}.

(** The values [--label] and [--user] leave in their destinations: the
    last one given, else what was there. *)
Fixpoint last_label (current : string) (occs : list occurrence) : string :=
  match occs with
  | [] => current
  | OptLabel v :: rest => last_label v rest
  | _ :: rest => last_label current rest
  end.

Fixpoint last_user (current : pyval) (occs : list occurrence) : pyval :=
  match occs with
  | [] => current
  | OptUser v :: rest => last_user (PyStr v) rest
  | _ :: rest => last_user current rest
  end.

(** The notices operations a trace records, oldest first. *)
Definition notices_operations (t : list event) : list api_call :=
  filter (fun c => is_notices_operation c) (api_calls t).

End Notices.

(** ** [binstar_client/plugins.py] *)

Module Plugins.

(** All subcommands in anaconda-client *)
Definition ALL_SUBCOMMANDS : gset string :=
  {[ "auth"; "channel"; "config"; "copy"; "download"; "groups"; "label";
     "login"; "logout"; "move"; "notebook"; "package"; "remove"; "search";
     "show"; "update"; "upload"; "whoami" ]}.
(** These subcommands will be shown in the top-level help *)
Definition NON_HIDDEN_SUBCOMMANDS : gset string := {[ "upload" ]}.
(** Any subcommands that should emit deprecation warnings *)
Definition DEPRECATED_SUBCOMMANDS : gset string := {[ "notebook" ]}.
(** Subcommands which have typer subcommands defined *)
Definition SUBCOMMANDS_WITH_NEW_CLI : gset string :=
  {[ "auth"; "channel"; "config"; "copy"; "groups"; "label"; "move";
     "package"; "remove"; "search"; "show"; "update"; "upload"; "whoami" ]}.

(** What running a mounted handler does to the process: warnings of the
    module logger and calls of the legacy dispatcher [binstar_main]. *)
Inductive event : Type :=
| Warn (logger message : string)
| Dispatch (args : list string) (allow_plugin_main : bool).

Record process : Type := {
  argv : list string;
  trace : list event;
}.

Definition emit (e : event) : M process unit :=
  modify (fun p => {| argv := argv p; trace := (trace p ++ [e])%list |}).

(** [log = logging.getLogger(__name__)] *)
Definition log : string := "binstar_client.plugins".
Definition log_warning (msg : string) : M process unit := emit (Warn log msg).

(** The two Typer applications commands are mounted on. *)
Inductive typer_app : Type := app | main_app.

Record settings : Type := {
  allow_extra_args : bool;
  ignore_unknown_options : bool;
  help_option_names : option (list string);
}.

(** One registration: [target.command(name, help, hidden,
    context_settings)(func)], or the [mount_subcommand] of a module of
    [binstar_client.commands]. *)
Inductive mount : Type :=
| command (target : typer_app) (name help : string) (hidden : bool)
          (context_settings : settings) (func : M process unit)
| mount_subcommand (module : string) (target : typer_app) (name : string)
                   (hidden : bool) (help_text : string) (context_settings : settings).

Definition mount_name (m : mount) : string :=
  match m with
  | command _ n _ _ _ _ => n
  | mount_subcommand _ _ n _ _ _ => n
  end.

Definition mount_target (m : mount) : typer_app :=
  match m with
  | command t _ _ _ _ _ => t
  | mount_subcommand _ t _ _ _ _ => t
  end.

Definition passthrough_settings : settings :=
  {| allow_extra_args := true; ignore_unknown_options := true;
     help_option_names := None |}.

(** What [_get_help_text] reads of the legacy [ArgumentParser]:
    [_subparsers], the [choices] of its subparsers action, and the
    [description] of the parser of each subcommand; each may be [None]. *)
Record ArgumentParser : Type := {
  _subparsers : option (option (gmap string (option string)));
}.

(** [str.isspace] on the code points 0..255. *)
Definition isspace (c : ascii) : bool :=
  let n := nat_of_ascii c in
  ((9 <=? n) && (n <=? 13) || (28 <=? n) && (n <=? 32)
   || (n =? 133) || (n =? 160))%nat.

Fixpoint lstrip (s : string) : string :=
  match s with
  | EmptyString => EmptyString
  | String c s' => if isspace c then lstrip s' else s
  end.

Fixpoint rstrip (s : string) : string :=
  match s with
  | EmptyString => EmptyString
  | String c s' =>
      match rstrip s' with
      | EmptyString => if isspace c then EmptyString else String c EmptyString
      | kept => String c kept
      end
  end.

(** [s.strip()] *)
Definition strip (s : string) : string := rstrip (lstrip s).

(** [_get_help_text(parser, name)] *)
Definition _get_help_text (parser : ArgumentParser) (name : string) : string :=
  match _subparsers parser with
  | None => EmptyString
  | Some None => EmptyString
  | Some (Some choices) =>
      match choices !! name with
      | None => EmptyString
      | Some None => EmptyString
      | Some (Some description) => strip description
      end
  end.

Definition deprecation_message (name : string) : string :=
  "The existing anaconda-client commands will be deprecated. To maintain compatibility, "
  +:+ "please either pin `anaconda-client<2` or update your system call with the `org` prefix, "
  +:+ "e.g. " +:+ dquote +:+ "anaconda org " +:+ name +:+ " ..." +:+ dquote.

Section Bridge.
(** The legacy dispatcher [binstar_main], the process environment, the
    parser [add_subparser_modules] fills, and the text
    [typer.style("(deprecated)", fg=RED, bold=True)]. *)
Context (binstar_main : list string -> bool -> result unit).
Context (environ : string -> option string).
Context (parser : ArgumentParser).
Context (deprecated_text : string).

(** [_deprecate(name, func)]: the closure [new_func]. *)
Definition _deprecate {A} (name : string) (func : M process A) : M process A :=
  let msg := deprecation_message name in
  log_warning msg >> func.

(** [_subcommand()] *)
Definition _subcommand : M process unit :=
  let* sys_argv := gets argv in
  let args := filter (fun arg => arg <> "org") (drop 1 sys_argv) in
  emit (Dispatch args false) >> answer (binstar_main args false).

(** [bool(os.getenv(key, False))] *)
Definition getenv_flag (key : string) : bool :=
  match environ key with
  | Some (String _ _) => true
  | Some EmptyString | None => false
  end.

(** [_load_new_subcommand(app, name, help_text, hidden)] *)
Definition _load_new_subcommand (target : typer_app) (name help_text : string)
    (hidden : bool) (registry : list mount) : list mount :=
  let mod_name :=
    if String.eqb name "label" then "channel"
    else if String.eqb name "auth" then "authorizations"
    else name in
  (registry ++ [mount_subcommand mod_name target name hidden help_text
                  {| allow_extra_args := true; ignore_unknown_options := true;
                     help_option_names := Some ["-h"; "--help"] |}])%list.

(** [_mount_subcommand(name, help_text, is_deprecated, mount_to_main,
    is_hidden_on_main)] *)
Definition _mount_subcommand (name help_text : string)
    (is_deprecated mount_to_main is_hidden_on_main : bool)
    (registry : list mount) : list mount :=
  let force_use_new_cli := getenv_flag "ANACONDA_CLI_FORCE_NEW" in
  let main_help_text :=
    "anaconda.org: "
    +:+ (match help_text with EmptyString => EmptyString | _ => help_text +:+ " " end)
    +:+ "(alias for 'anaconda org " +:+ name +:+ "')" in
  let help_text :=
    if is_deprecated then deprecated_text +:+ " " +:+ help_text else help_text in
  let func :=
    if is_deprecated then _deprecate name _subcommand else _subcommand in
  if force_use_new_cli && bool_decide (name ∈ SUBCOMMANDS_WITH_NEW_CLI) then
    let registry := _load_new_subcommand app name help_text false registry in
    if mount_to_main then
      _load_new_subcommand main_app name main_help_text is_hidden_on_main registry
    else registry
  else
    let registry :=
      (registry ++ [command app name help_text false passthrough_settings func])%list in
    if negb mount_to_main then registry
    else
      (registry ++ [command main_app name main_help_text is_hidden_on_main
                      passthrough_settings func])%list.

Definition mount_legacy (registry : list mount) (name : string) : list mount :=
  _mount_subcommand name (_get_help_text parser name)
    (bool_decide (name ∈ DEPRECATED_SUBCOMMANDS))
    (bool_decide (name ∉ ({[ "login"; "logout"; "whoami" ]} : gset string)))
    (bool_decide (name ∉ NON_HIDDEN_SUBCOMMANDS))
    registry.

(** [load_legacy_subcommands()]; a set is iterated in no particular
    order, here the one of [elements]. *)
Definition load_legacy_subcommands (registry : list mount) : list mount :=
  if getenv_flag "ANACONDA_CLIENT_FORCE_STANDALONE" then registry
  else foldl mount_legacy registry (elements ALL_SUBCOMMANDS).

End Bridge.

Definition dispatched (t : list event) : list (list string * bool) :=
  omap (fun e => match e with Dispatch a b => Some (a, b) | _ => None end) t.

Definition warnings (t : list event) : list string :=
  omap (fun e => match e with Warn _ m => Some m | _ => None end) t.

Definition mount_hidden (m : mount) : bool :=
  match m with
  | command _ _ _ h _ _ => h
  | mount_subcommand _ _ _ h _ _ => h
  end.

Definition mount_settings (m : mount) : settings :=
  match m with
  | command _ _ _ _ cs _ => cs
  | mount_subcommand _ _ _ _ _ cs => cs
  end.

(** The callable of a legacy registration. *)
Definition mount_func (m : mount) : option (M process unit) :=
  match m with
  | command _ _ _ _ _ func => Some func
  | mount_subcommand _ _ _ _ _ _ => None
  end.

(** The module [_load_new_subcommand] takes a subcommand from. *)
Definition mount_module (m : mount) : option string :=
  match m with
  | command _ _ _ _ _ _ => None
  | mount_subcommand module _ _ _ _ _ => Some module
  end.

#[global] Instance typer_app_eq_dec : EqDecision typer_app.
Proof. solve_decision. Defined.

(** The mounts of [name] on [target] in a registry. *)
Definition mounts_of (name : string) (target : typer_app) (registry : list mount) : list mount :=
  filter (fun m => mount_name m = name /\ mount_target m = target) registry.

(** Whether a text starts or ends with white space. *)
Definition leading_space (s : string) : bool :=
  match s with
  | EmptyString => false
  | String c _ => isspace c
  end.

Fixpoint trailing_space (s : string) : bool :=
  match s with
  | EmptyString => false
  | String c EmptyString => isspace c
  | String _ s' => trailing_space s'
  end.

(** [main_callback(ctx, token)], on [ctx.obj]: a dict, or [None] when no
    parent callback has set it.  Item assignment on [None] raises
    [TypeError]. *)
Definition main_callback (obj : option (gmap string pyval)) (token : option string)
    : result (option (gmap string pyval)) :=
  match token with
  | Some (String c rest) =>
      match obj with
      | Some d => Ok (Some (<["token" := PyStr (String c rest)]> d))
      | None => Raise (TypeError "'NoneType' object does not support item assignment")
      end
  | Some EmptyString | None => Ok obj
  end.

End Plugins.

(** ** Sample environments

    Concrete collaborators on which the statements below are run. *)

Module Samples.
Import Notices.

Definition object_a_1 : string := "{" +:+ dquote +:+ "a" +:+ dquote +:+ ":1}".
Definition object_x_2 : string := "{" +:+ dquote +:+ "x" +:+ dquote +:+ ":2}".

(** The answers of [json.loads] on the texts the examples use; any other
    text they hand it is not JSON. *)
Definition loads (text : string) : result pyval :=
  if String.eqb text "1" then Ok (PyInt 1)
  else if String.eqb text "2" then Ok (PyInt 2)
  else if String.eqb text "{}" then Ok (PyDict [])
  else if String.eqb text object_a_1 then Ok (PyDict [("a", PyInt 1)])
  else if String.eqb text object_x_2 then Ok (PyDict [("x", PyInt 2)])
  else Raise (JSONDecodeError "Expecting value").

Definition empty_notices : pyval := PyDict [("notices", PyList [])].

(** A server that accepts everything, with [alice] logged in. *)
Definition server : api_handle :=
  {| on_check_server := Ok tt;
     on_user := Ok [("login", PyStr "alice")];
     on_create_notices := fun _ _ _ => Ok tt;
     on_remove_notices := fun _ _ => Ok tt;
     on_notices := fun _ _ => Ok empty_notices |}.

(** The same server with nobody logged in. *)
Definition anonymous_server : api_handle :=
  {| on_check_server := Ok tt;
     on_user := Ok [];
     on_create_notices := fun _ _ _ => Ok tt;
     on_remove_notices := fun _ _ => Ok tt;
     on_notices := fun _ _ => Ok empty_notices |}.

(** A working directory without files. *)
Definition bare : collaborators :=
  {| json_loads := loads;
     path_exists := fun _ => Ok false;
     path_read := fun _ => Raise (OSError "[Errno 2] No such file or directory");
     get_server_api := fun _ _ => Ok server |}.

Definition bare_anonymous : collaborators :=
  {| json_loads := loads;
     path_exists := fun _ => Ok false;
     path_read := fun _ => Raise (OSError "[Errno 2] No such file or directory");
     get_server_api := fun _ _ => Ok anonymous_server |}.

(** A working directory that holds [./notice.json]. *)
Definition with_notice_file : collaborators :=
  {| json_loads := loads;
     path_exists := fun p => Ok (String.eqb p "./notice.json");
     path_read := fun p =>
       if String.eqb p "./notice.json" then Ok object_x_2
       else Raise (OSError "[Errno 2] No such file or directory");
     get_server_api := fun _ _ => Ok server |}.

(** A working directory with a file [notice.json] that contains [1] and a
    file named [1] that contains [2]. *)
Definition with_file_named_1 : collaborators :=
  {| json_loads := loads;
     path_exists := fun p => Ok (String.eqb p "notice.json" || String.eqb p "1");
     path_read := fun p =>
       if String.eqb p "notice.json" then Ok "1"
       else if String.eqb p "1" then Ok "2"
       else Raise (OSError "[Errno 2] No such file or directory");
     get_server_api := fun _ _ => Ok server |}.

(** A working directory that holds [broken.json], which is not JSON. *)
Definition with_broken_file : collaborators :=
  {| json_loads := loads;
     path_exists := fun p => Ok (String.eqb p "broken.json");
     path_read := fun p =>
       if String.eqb p "broken.json" then Ok "{oops"
       else Raise (OSError "[Errno 2] No such file or directory");
     get_server_api := fun _ _ => Ok server |}.

(** A server that cannot be reached, and one that refuses to hand out
    notices. *)
Definition unreachable : collaborators :=
  {| json_loads := loads;
     path_exists := fun _ => Ok false;
     path_read := fun _ => Raise (OSError "[Errno 2] No such file or directory");
     get_server_api := fun _ _ => Raise (OtherException "ConnectionError" "unreachable") |}.

Definition refusing_server : api_handle :=
  {| on_check_server := Ok tt;
     on_user := Ok [("login", PyStr "alice")];
     on_create_notices := fun _ _ _ => Ok tt;
     on_remove_notices := fun _ _ => Ok tt;
     on_notices := fun _ _ => Raise (OtherException "Unauthorized" "401") |}.

Definition bare_refusing : collaborators :=
  {| json_loads := loads;
     path_exists := fun _ => Ok false;
     path_read := fun _ => Raise (OSError "[Errno 2] No such file or directory");
     get_server_api := fun _ _ => Ok refusing_server |}.

(** A text of [n] letters [x]. *)
Fixpoint letters (n : nat) : string :=
  match n with
  | O => EmptyString
  | S n' => String "x"%char (letters n')
  end.

(** A working directory without files, on a system whose file names hold
    at most 255 bytes: the existence test of a longer name raises. *)
Definition name_limit : collaborators :=
  {| json_loads := loads;
     path_exists := fun p =>
       if (255 <? String.length p)%nat
       then Raise (OSError "[Errno 36] File name too long")
       else Ok false;
     path_read := fun _ => Raise (OSError "[Errno 2] No such file or directory");
     get_server_api := fun _ _ => Ok server |}.

(** A text of [n] digits [1], the number it writes, and the same system
    with a [json.loads] that reads the text of 256 digits. *)
Fixpoint ones (n : nat) : string :=
  match n with
  | O => EmptyString
  | S n' => String "1"%char (ones n')
  end.

Fixpoint ones_value (n : nat) : Z :=
  match n with
  | O => 0
  | S n' => 10 * ones_value n' + 1
  end.

Definition name_limit_numbers : collaborators :=
  {| json_loads := fun text =>
       if String.eqb text (ones 256) then Ok (PyInt (ones_value 256)) else loads text;
     path_exists := path_exists name_limit;
     path_read := path_read name_limit;
     get_server_api := get_server_api name_limit |}.

Definition dispatcher_ok (args : list string) (allow_plugin_main : bool) : result unit :=
  Ok tt.

(** Process environments: nothing set, the new CLI forced, the bridge
    switched off. *)
Definition environ_unset (key : string) : option string := None.

Definition environ_force_new (key : string) : option string :=
  if String.eqb key "ANACONDA_CLI_FORCE_NEW" then Some "1" else None.

Definition environ_standalone (key : string) : option string :=
  if String.eqb key "ANACONDA_CLIENT_FORCE_STANDALONE" then Some "0" else None.

Definition legacy_parser : Plugins.ArgumentParser :=
  {| Plugins._subparsers :=
       Some (Some {[ "notebook" := Some " Interact with notebooks "; "upload" := None ]}) |}.

End Samples.

(** * Properties of the notices command *)

(** ** The monad *)

Lemma bind_eq {S A B} (m : M S A) (k : A -> M S B) (s : S) :
  bind m k s = match m s with
               | (Ok a, s') => k a s'
               | (Raise e, s') => (Raise e, s')
               end.
Proof. reflexivity. Qed.

Lemma bind_ok {S A B} (m : M S A) (k : A -> M S B) (s s' : S) (a : A) :
  m s = (Ok a, s') -> bind m k s = k a s'.
Proof. intros H. rewrite bind_eq, H. reflexivity. Qed.

Lemma bind_raise {S A B} (m : M S A) (k : A -> M S B) (s s' : S) (e : exn) :
  m s = (Raise e, s') -> bind m k s = (Raise e, s').
Proof. intros H. rewrite bind_eq, H. reflexivity. Qed.

Module NoticesFacts.
Import Notices.

(** The store after [setattr(namespace, 'notices', data)]. *)
Local Abbreviation stored v st :=
  {| args := set_notices v (args st); trace := trace st |}.

Local Abbreviation failed msg st :=
  {| args := args st; trace := app (trace st) [Log logger ERROR msg] |}.

Section Normalizer.
Context (W : collaborators).

Lemma normalize_literal s v st :
  path_exists W s = Ok false ->
  json_loads W s = Ok v ->
  NoticesAction_call W (PyStr s) st = (Ok tt, stored v st).
Proof.
  intros Hno Hv. unfold NoticesAction_call, bind.
  rewrite Hno. cbn. rewrite Hv. reflexivity.
Qed.

Lemma normalize_file p text st :
  path_exists W p = Ok true ->
  path_read W p = Ok text ->
  NoticesAction_call W (PyStr p) st =
  match json_loads W text with
  | Ok data => (Ok tt, stored data st)
  | Raise (JSONDecodeError _) => (Raise (SystemExit 1), failed invalid_json st)
  | Raise e => (Raise e, st)
  end.
Proof.
  intros Hex Hrd. unfold NoticesAction_call, bind.
  rewrite Hex, Hrd. cbn.
  destruct (json_loads W text) as [data|[]]; reflexivity.
Qed.

(** C3 (amended): a string that is valid JSON text and on which the
    existence test answers that no such path exists is normalised to the
    payload [json.loads] gives for the string itself, and that payload is
    stored in [notices]. *)
Theorem C3_literal_json_is_parsed_directly (s : string) (v : pyval) (st : state) :
  path_exists W s = Ok false ->
  json_loads W s = Ok v ->
  NoticesAction_call W (PyStr s) st = (Ok tt, stored v st)
  /\ notices (args (snd (NoticesAction_call W (PyStr s) st))) = v.
Proof.
  intros Hno Hv. rewrite (normalize_literal s v st Hno Hv). split; reflexivity.
Qed.

(** C4 (amended): for a path to an existing readable file whose contents
    are valid JSON and on which, taken as a path, the existence test
    answers that no such path exists, normalising the path and normalising
    the contents are the same computation, both store the parsed contents,
    and [--create path] makes the whole command behave as
    [--create contents] does, wherever it stands among the other
    options. *)
Theorem C4_file_is_normalized_like_its_contents
    (p text : string) (v : pyval) :
  path_exists W p = Ok true ->
  path_read W p = Ok text ->
  json_loads W text = Ok v ->
  path_exists W text = Ok false ->
  (forall st, NoticesAction_call W (PyStr p) st = NoticesAction_call W (PyStr text) st)
  /\ (forall st, NoticesAction_call W (PyStr p) st = (Ok tt, stored v st))
  /\ (forall before after st,
        notices_command W (before ++ OptCreate p :: after) st
        = notices_command W (before ++ OptCreate text :: after) st).
Proof.
  intros Hex Hrd Hv Hno.
  assert (Hsame : forall st, NoticesAction_call W (PyStr p) st
                             = NoticesAction_call W (PyStr text) st).
  { intros st. rewrite (normalize_file p text st Hex Hrd), Hv.
    symmetry. apply normalize_literal; assumption. }
  split; [exact Hsame|]. split.
  - intros st. rewrite (normalize_file p text st Hex Hrd), Hv. reflexivity.
  - intros before after st.
    assert (Htake : forall seen s0, take_action W seen (OptCreate p) s0
                                    = take_action W seen (OptCreate text) s0).
    { intros seen s0. unfold take_action. cbn [group_action].
      destruct (List.find (seen_in seen) (conflicts Create)); [reflexivity|].
      rewrite !bind_eq. cbn [run_action]. rewrite Hsame. reflexivity. }
    assert (Hconsume : forall seen s0,
               consume W seen (before ++ OptCreate p :: after) s0
               = consume W seen (before ++ OptCreate text :: after) s0).
    { induction before as [|o before IH]; intros seen s0.
      - cbn [app consume]. rewrite !bind_eq, Htake. reflexivity.
      - cbn [app consume]. rewrite !bind_eq.
        destruct (take_action W seen o s0) as [[seen'|e] s1]; [apply IH|reflexivity]. }
    unfold notices_command, parse_args. rewrite !bind_eq.
    destruct (setattr set_defaults st) as [[[]|e] s0]; [|reflexivity].
    rewrite Hconsume. reflexivity.
Qed.

(** When the existence test answers: a string that names no existing path
    and is not valid JSON, or that names an existing path which cannot be
    read, makes normalisation log one error and raise [SystemExit(1)], and
    the namespace is left as it was. *)
Lemma malformed_argument_exits_1 (s : string) (st : state) :
  (path_exists W s = Ok false /\ exists m, json_loads W s = Raise (JSONDecodeError m))
  \/ (path_exists W s = Ok true /\ exists m, path_read W s = Raise (OSError m)) ->
  exists msg,
    NoticesAction_call W (PyStr s) st = (Raise (SystemExit 1), failed msg st)
    /\ exit_status (fst (NoticesAction_call W (PyStr s) st)) = Some 1
    /\ args (snd (NoticesAction_call W (PyStr s) st)) = args st.
Proof.
  intros [[Hno [m Hm]]|[Hex [m Hm]]].
  - exists invalid_json. unfold NoticesAction_call, bind.
    rewrite Hno. cbn. rewrite Hm. cbn. auto.
  - exists (unreadable_file m). unfold NoticesAction_call, bind.
    rewrite Hex, Hm. cbn. auto.
Qed.

(** When the existence test raises, the action raises the same exception
    at once: nothing is logged and nothing is stored. *)
Lemma exists_failure_escapes (s : string) (e : exn) (st : state) :
  path_exists W s = Raise e ->
  NoticesAction_call W (PyStr s) st = (Raise e, st).
Proof.
  intros He. unfold NoticesAction_call, bind, answer. rewrite He. reflexivity.
Qed.

End Normalizer.


(** *** The session resolver *)

Section Session.
Context (W : collaborators).

(** The store [resolve_session] hands to the handler. *)
Local Abbreviation resolved h u st :=
  {| args := set_user u (set_api h (args st));
     trace := app (trace st) (session_calls (args st)) |}.

Lemma resolve_session_ok st h u :
  get_server_api W (token (args st)) (site (args st)) = Ok h ->
  on_check_server h = Ok tt ->
  resolved_account h (args st) = Some u ->
  resolve_session W st = (Ok tt, resolved h u st) /\ u <> PyNone.
Proof.
  intros Hapi Hcheck Hacc.
  unfold resolve_session, bind, gets, answer, setattr, invoke, emit, modify.
  rewrite Hapi. cbn. rewrite Hcheck.
  unfold resolved_account, session_calls in *.
  destruct (user (args st)) eqn:Hu;
    try (injection Hacc as <-; rewrite <- Hu; split; [reflexivity|congruence]).
  destruct (on_user h) as [whoami|]; [|discriminate].
  cbn [args trace].
  destruct (dict_get whoami "login") eqn:Hlogin; try discriminate;
    injection Hacc as <-; (split; [|congruence]);
    unfold ret; rewrite <- app_assoc; reflexivity.
Qed.

(** Whatever the collaborators answer, the resolver either returns with an
    API handle and an account attached and the other attributes untouched,
    or raises; it calls none of the three notices operations. *)
Lemma resolve_session_cases st :
  (exists st1 h,
      resolve_session W st = (Ok tt, st1)
      /\ api (args st1) = Some h /\ user (args st1) <> PyNone
      /\ label (args st1) = label (args st)
      /\ notices (args st1) = notices (args st)
      /\ remove (args st1) = remove (args st)
      /\ get (args st1) = get (args st)
      /\ logged (trace st1) = logged (trace st)
      /\ filter is_notices_operation (api_calls (trace st1))
         = filter is_notices_operation (api_calls (trace st)))
  \/ (exists e st',
         resolve_session W st = (Raise e, st')
         /\ filter is_notices_operation (api_calls (trace st'))
            = filter is_notices_operation (api_calls (trace st))).
Proof.
  unfold resolve_session, bind, gets, answer, setattr, invoke, emit, modify,
    logger_error, emit, modify, ret, raise.
  destruct (get_server_api W (token (args st)) (site (args st))) as [h|e].
  2:{ right. exists e, st. split; reflexivity. }
  cbn. destruct (on_check_server h) as [[]|e].
  2:{ right. eexists _, _. split; [reflexivity|]. cbn.
      unfold api_calls. rewrite omap_app, filter_app. cbn. apply app_nil_r. }
  assert (Hcall : forall t c, is_notices_operation c = false ->
             filter is_notices_operation (api_calls (t ++ [Call c]))
             = filter is_notices_operation (api_calls t)).
  { intros t c Hc. unfold api_calls. rewrite omap_app, filter_app. cbn.
    rewrite Hc. apply app_nil_r. }
  assert (Hlog : forall t c, logged (t ++ [Call c]) = logged t).
  { intros t c. unfold logged. rewrite omap_app. cbn. apply app_nil_r. }
  destruct (user (args st)) eqn:Hu;
    try (left; eexists _, h; split; [reflexivity|]; cbn;
         rewrite Hu, Hlog, Hcall by reflexivity; repeat split; congruence).
  destruct (on_user h) as [whoami|e].
  2:{ right. eexists _, _. split; [reflexivity|]. cbn.
      rewrite !Hcall by reflexivity. reflexivity. }
  cbn. destruct (dict_get whoami "login") eqn:Hlogin;
    try (left; eexists _, h; split; [reflexivity|]; cbn;
         rewrite !Hlog, !Hcall by reflexivity; repeat split; congruence).
  right. eexists _, _. split; [reflexivity|]. cbn.
  unfold api_calls. rewrite omap_app. cbn. rewrite app_nil_r.
  fold (api_calls ((trace st ++ [Call check_server]) ++ [Call user_])).
  rewrite !Hcall by reflexivity. reflexivity.
Qed.

End Session.


(** *** The parser *)

Section Parser.
Context (W : collaborators).

Lemma action_eqb_eq a b : action_eqb a b = true <-> a = b.
Proof. destruct a, b; cbn; split; congruence. Qed.

Lemma NoticesAction_stores v st st1 :
  NoticesAction_call W (PyStr v) st = (Ok tt, st1) ->
  exists data, normalized W v = Some data /\ st1 = stored data st.
Proof.
  unfold NoticesAction_call, normalized, bind, answer, ret, raise, setattr, modify,
    logger_error, emit, modify.
  destruct (path_exists W v) as [[|]|]; [| |discriminate].
  - destruct (path_read W v) as [text|[]]; try discriminate.
    destruct (json_loads W text) as [data|[]]; try discriminate.
    intros [= <-]. eauto.
  - destruct (json_loads W v) as [data|[]]; try discriminate.
    intros [= <-]. eauto.
Qed.

Lemma NoticesAction_cases values st r st1 :
  NoticesAction_call W values st = (r, st1) ->
  (r = Ok tt /\ exists data, st1 = stored data st)
  \/ (exists e, r = Raise e /\ (st1 = st \/ exists msg, st1 = failed msg st)).
Proof.
  unfold NoticesAction_call, bind, answer, ret, raise, setattr, modify,
    logger_error, emit, modify.
  destruct values as [| | | |path| |];
    try (intros [= <- <-]; right; eexists; split; [reflexivity|right; eexists; reflexivity]).
  destruct (path_exists W path) as [[|]|];
    [| |intros [= <- <-]; right; eexists; split; [reflexivity|left; reflexivity]].
  - destruct (path_read W path) as [text|[]];
      try (intros [= <- <-]; right; eexists; split; [reflexivity|];
           first [left; reflexivity | right; eexists; reflexivity]).
    destruct (json_loads W text) as [data|[]]; intros [= <- <-];
      first [ left; split; [reflexivity|eexists; reflexivity]
            | right; eexists; split; [reflexivity|];
              first [left; reflexivity | right; eexists; reflexivity] ].
  - destruct (json_loads W path) as [data|[]]; intros [= <- <-];
      first [ left; split; [reflexivity|eexists; reflexivity]
            | right; eexists; split; [reflexivity|];
              first [left; reflexivity | right; eexists; reflexivity] ].
Qed.

Lemma api_calls_log t n l m : api_calls (t ++ [Log n l m]) = api_calls t.
Proof. unfold api_calls. rewrite omap_app. apply app_nil_r. Qed.

Lemma api_calls_parser_error t m : api_calls (t ++ [ParserError m]) = api_calls t.
Proof. unfold api_calls. rewrite omap_app. apply app_nil_r. Qed.

Lemma find_conflict_none seen a :
  List.find (seen_in seen) (conflicts a) = None ->
  forall c, seen_in seen c = true -> c = a.
Proof.
  intros Hfind c Hc.
  destruct a, c; try reflexivity; cbn in Hfind;
    repeat match type of Hfind with
           | context [seen_in seen ?x] => destruct (seen_in seen x) eqn:?
           end; congruence.
Qed.

(** One accepted option: nothing is emitted, a member of the group is
    accepted only if every member seen before is that same member, and the
    three destinations of the group change as the option says. *)
Lemma take_action_ok seen o st seen' st1 :
  take_action W seen o st = (Ok seen', st1) ->
  trace st1 = trace st
  /\ (forall c, seen_in seen' c = (selects c o || seen_in seen c))
  /\ (forall a, selects a o = true -> forall c, seen_in seen c = true -> c = a)
  /\ remove (args st1) = (remove (args st) || selects Remove o)
  /\ get (args st1) = (get (args st) || selects Get o)
  /\ (selects Create o = false -> notices (args st1) = notices (args st))
  /\ (forall v, o = OptCreate v -> normalized W v = Some (notices (args st1))).
Proof.
  unfold take_action.
  destruct (group_action o) as [a|] eqn:Ha.
  - destruct (List.find (seen_in seen) (conflicts a)) eqn:Hfind.
    { unfold parser_error. rewrite bind_eq. cbn. discriminate. }
    assert (Hsel : forall c, selects c o = action_eqb c a)
      by (intros c; unfold selects; rewrite Ha; reflexivity).
    assert (Hseen : forall c, seen_in (a :: seen) c = (selects c o || seen_in seen c))
      by (intros c; rewrite Hsel; reflexivity).
    assert (Hone : forall b, selects b o = true ->
                             forall c, seen_in seen c = true -> c = b).
    { intros b Hb c Hc. rewrite Hsel in Hb. apply action_eqb_eq in Hb. subst b.
      eapply find_conflict_none; eassumption. }
    rewrite bind_eq.
    destruct o as [v|v|v| |]; try discriminate Ha; cbn [run_action].
    + destruct (NoticesAction_call W (PyStr v) st) as [[[]|e] s0] eqn:Hcall;
        [|discriminate].
      destruct (NoticesAction_stores _ _ _ Hcall) as (data & Hdata & ->).
      cbn. intros [= <- <-]. cbn [args trace remove get notices set_notices].
      rewrite !orb_false_r.
      refine (conj eq_refl (conj Hseen (conj Hone (conj eq_refl (conj eq_refl
                (conj _ _)))))); [discriminate|].
      intros v' [= <-]. exact Hdata.
    + cbn. intros [= <- <-]. cbn [args trace remove get notices set_remove].
      rewrite orb_true_r, orb_false_r.
      refine (conj eq_refl (conj Hseen (conj Hone (conj eq_refl (conj eq_refl
                (conj _ _)))))); [reflexivity|discriminate].
    + cbn. intros [= <- <-]. cbn [args trace remove get notices set_get].
      rewrite orb_true_r, orb_false_r.
      refine (conj eq_refl (conj Hseen (conj Hone (conj eq_refl (conj eq_refl
                (conj _ _)))))); [reflexivity|discriminate].
  - assert (Hsel : forall c, selects c o = false)
      by (intros c; unfold selects; rewrite Ha; reflexivity).
    rewrite bind_eq.
    destruct o as [v|v|v| |]; try discriminate Ha; cbn; intros [= <- <-]; cbn;
      (refine (conj eq_refl (conj _ (conj _ (conj _ (conj _ (conj _ _))))));
       [ reflexivity | discriminate | symmetry; apply orb_false_r
       | symmetry; apply orb_false_r | reflexivity | discriminate ]).
Qed.

(** One refused option: either the group check fails with a usage error
    and status 2, or the argument of [--create] could not be normalised;
    no API call is made. *)
Lemma take_action_raise seen o st e st1 :
  take_action W seen o st = (Raise e, st1) ->
  api_calls (trace st1) = api_calls (trace st)
  /\ ((e = SystemExit 2 /\ exists msg, trace st1 = (trace st ++ [ParserError msg])%list)
      \/ selects Create o = true).
Proof.
  unfold take_action.
  destruct (group_action o) as [a|] eqn:Ha.
  - destruct (List.find (seen_in seen) (conflicts a)) eqn:Hfind.
    { unfold parser_error. rewrite bind_eq. cbn. intros [= <- <-]. cbn.
      split; [apply api_calls_parser_error|]. left. split; [reflexivity|eauto]. }
    rewrite bind_eq.
    destruct o as [v|v|v| |]; try discriminate Ha; cbn [run_action];
      try (cbn; discriminate).
    destruct (NoticesAction_call W (PyStr v) st) as [r s0] eqn:Hcall.
    destruct (NoticesAction_cases _ _ _ _ Hcall) as [[-> [data ->]]|[e' [-> Hs0]]].
    { cbn. discriminate. }
    intros [= <- <-]. split; [|right; reflexivity].
    destruct Hs0 as [->|[msg ->]]; [reflexivity|apply api_calls_log].
  - rewrite bind_eq.
    destruct o as [v|v|v| |]; try discriminate Ha; cbn; discriminate.
Qed.

Lemma supplied_cons a o occs :
  supplied a (o :: occs) = (selects a o || supplied a occs).
Proof. reflexivity. Qed.

Lemma last_create_none occs :
  last_create occs = None -> supplied Create occs = false.
Proof.
  induction occs as [|o occs IH]; [reflexivity|].
  cbn [last_create]. rewrite supplied_cons.
  destruct (last_create occs); [discriminate|].
  destruct o; try discriminate; intros _; apply IH; reflexivity.
Qed.

Lemma last_create_some occs :
  supplied Create occs = true -> exists v, last_create occs = Some v.
Proof.
  intros H. destruct (last_create occs) as [v|] eqn:Hl; [eauto|].
  rewrite (last_create_none _ Hl) in H. discriminate.
Qed.

(** An accepted command line: nothing was emitted while parsing, all the
    members of the group that occur are one and the same, and the
    destinations hold what the options said. *)
Lemma consume_ok occs : forall seen st st1,
  consume W seen occs st = (Ok tt, st1) ->
  trace st1 = trace st
  /\ (forall a, supplied a occs = true ->
      forall b, seen_in seen b = true \/ supplied b occs = true -> b = a)
  /\ remove (args st1) = (remove (args st) || supplied Remove occs)
  /\ get (args st1) = (get (args st) || supplied Get occs)
  /\ (supplied Create occs = false -> notices (args st1) = notices (args st))
  /\ (forall v, last_create occs = Some v ->
      normalized W v = Some (notices (args st1))).
Proof.
  induction occs as [|o occs IH]; intros seen st st1.
  - cbn. intros [= <-]. rewrite !orb_false_r.
    repeat split; try reflexivity; discriminate.
  - cbn [consume]. rewrite bind_eq.
    destruct (take_action W seen o st) as [[seen'|e] s0] eqn:Htake; [|discriminate].
    intros Hrest.
    destruct (take_action_ok _ _ _ _ _ Htake)
      as (Ht & Hseen & Hone & Hrm & Hget & Hnot & Hnew).
    destruct (IH _ _ _ Hrest) as (Ht' & Hone' & Hrm' & Hget' & Hnot' & Hlast').
    rewrite !supplied_cons.
    refine (conj _ (conj _ (conj _ (conj _ (conj _ _))))).
    + congruence.
    + intros a Ha b Hb. rewrite supplied_cons in Hb.
      assert (Hb' : seen_in seen' b = true \/ supplied b occs = true).
      { rewrite Hseen. destruct Hb as [Hb|Hb]; [rewrite Hb, orb_true_r; auto|].
        apply orb_true_iff in Hb as [Hb|Hb]; [rewrite Hb; auto|auto]. }
      apply orb_true_iff in Ha as [Ha|Ha].
      * destruct Hb' as [Hb'|Hb'].
        -- rewrite Hseen in Hb'. apply orb_true_iff in Hb' as [Hb'|Hb'].
           ++ unfold selects in *. destruct (group_action o); [|discriminate].
              apply action_eqb_eq in Ha, Hb'. congruence.
           ++ eapply Hone; eassumption.
        -- symmetry. apply (Hone' b Hb' a). left. rewrite Hseen, Ha. reflexivity.
      * apply (Hone' a Ha b Hb').
    + rewrite Hrm', Hrm, orb_assoc. reflexivity.
    + rewrite Hget', Hget, orb_assoc. reflexivity.
    + intros Hc. apply orb_false_iff in Hc as [Hc1 Hc2].
      rewrite (Hnot' Hc2). apply Hnot, Hc1.
    + intros v. cbn [last_create].
      destruct (last_create occs) as [v'|] eqn:Hl.
      * intros [= <-]. apply Hlast'. reflexivity.
      * rewrite (Hnot' (last_create_none _ Hl)).
        destruct o; try discriminate. intros [= <-]. apply Hnew. reflexivity.
Qed.

(** A refused command line: no API call was made, and the refusal is the
    usage error of the group, status 2, unless [--create] was supplied. *)
Lemma consume_raise occs : forall seen st e st1,
  consume W seen occs st = (Raise e, st1) ->
  api_calls (trace st1) = api_calls (trace st)
  /\ ((e = SystemExit 2 /\ exists msg, trace st1 = (trace st ++ [ParserError msg])%list)
      \/ supplied Create occs = true).
Proof.
  induction occs as [|o occs IH]; intros seen st e st1.
  - cbn. discriminate.
  - cbn [consume]. rewrite bind_eq, supplied_cons.
    destruct (take_action W seen o st) as [[seen'|e0] s0] eqn:Htake.
    + intros Hrest.
      destruct (take_action_ok _ _ _ _ _ Htake) as (Ht & _).
      destruct (IH _ _ _ _ Hrest) as (Hcalls & Hwhy).
      rewrite Ht in Hcalls, Hwhy. split; [exact Hcalls|].
      destruct Hwhy as [Hwhy|Hwhy]; [left; exact Hwhy|right].
      rewrite Hwhy. apply orb_true_r.
    + intros [= <- <-].
      destruct (take_action_raise _ _ _ _ _ Htake) as (Hcalls & Hwhy).
      split; [exact Hcalls|].
      destruct Hwhy as [Hwhy|Hwhy]; [left; exact Hwhy|right].
      rewrite Hwhy. reflexivity.
Qed.

Lemma parse_args_eq occs st :
  parse_args W occs st
  = consume W [] occs {| args := set_defaults (args st); trace := trace st |}.
Proof. reflexivity. Qed.

(** What an accepted command line leaves in the namespace. *)
Lemma parse_args_ok occs st st1 :
  parse_args W occs st = (Ok tt, st1) ->
  trace st1 = trace st
  /\ (forall a b, supplied a occs = true -> supplied b occs = true -> a = b)
  /\ remove (args st1) = supplied Remove occs
  /\ get (args st1) = supplied Get occs
  /\ (supplied Create occs = false -> notices (args st1) = PyNone)
  /\ (forall v, last_create occs = Some v ->
      normalized W v = Some (notices (args st1))).
Proof.
  rewrite parse_args_eq. intros H.
  destruct (consume_ok _ _ _ _ H) as (Ht & Hone & Hrm & Hget & Hnot & Hlast).
  cbn in Ht, Hrm, Hget, Hnot.
  refine (conj Ht (conj _ (conj Hrm (conj Hget (conj Hnot Hlast))))).
  intros a b Ha Hb. symmetry. apply (Hone a Ha b). right. exact Hb.
Qed.

End Parser.


(** *** The dispatcher *)

Section Dispatcher.
Context (W : collaborators).

Local Abbreviation emitted t st := {| args := args st; trace := app (trace st) t |}.

Lemma main_body_create st h :
  truthy (notices (args st)) = true ->
  api (args st) = Some h ->
  main_body st =
  (on_create_notices h (user (args st)) (label (args st)) (notices (args st)),
   emitted [Call (create_notices (user (args st)) (label (args st)) (notices (args st)))] st).
Proof.
  intros Hp Hh. unfold main_body. rewrite bind_eq. cbn [gets].
  rewrite Hp. unfold args_api, bind, gets. rewrite Hh. reflexivity.
Qed.

Lemma main_body_get st h fetched :
  truthy (notices (args st)) = false ->
  remove (args st) = false ->
  get (args st) = true ->
  api (args st) = Some h ->
  on_notices h (user (args st)) (label (args st)) = Ok fetched ->
  main_body st =
  (Ok tt, emitted [Call (notices_ (user (args st)) (label (args st)));
                   Log logger INFO (json_dumps 2 fetched)] st).
Proof.
  intros Hp Hr Hg Hh Hf. unfold main_body. rewrite bind_eq. cbn [gets].
  rewrite Hp, Hr, Hg. unfold args_api, bind, gets. rewrite Hh.
  unfold invoke, bind, emit, modify, answer, ret. rewrite Hf.
  unfold logger_info, emit, modify. cbn. rewrite <- app_assoc. reflexivity.
Qed.

Lemma main_body_idle st :
  truthy (notices (args st)) = false ->
  remove (args st) = false ->
  get (args st) = false ->
  main_body st = (Ok tt, st).
Proof.
  intros Hp Hr Hg. unfold main_body. rewrite bind_eq. cbn [gets].
  rewrite Hp, Hr, Hg. reflexivity.
Qed.

Lemma api_user_eq {A} (func : M state A) st :
  api_user W func st = match resolve_session W st with
                       | (Ok _, st1) => func st1
                       | (Raise e, st') => (Raise e, st')
                       end.
Proof. reflexivity. Qed.

Lemma notices_command_eq occs st :
  notices_command W occs st = match parse_args W occs st with
                              | (Ok _, st1) => main W st1
                              | (Raise e, st') => (Raise e, st')
                              end.
Proof. reflexivity. Qed.

Lemma created_app t1 t2 : created (t1 ++ t2) = (created t1 ++ created t2)%list.
Proof. apply omap_app. Qed.

Lemma api_calls_app t1 t2 : api_calls (t1 ++ t2) = (api_calls t1 ++ api_calls t2)%list.
Proof. apply omap_app. Qed.

Lemma logged_app t1 t2 : logged (t1 ++ t2) = (logged t1 ++ logged t2)%list.
Proof. apply omap_app. Qed.

Lemma session_calls_quiet a :
  created (session_calls a) = []
  /\ filter is_notices_operation (api_calls (session_calls a)) = []
  /\ logged (session_calls a) = [].
Proof. unfold session_calls. destruct (user a); repeat split. Qed.

(** C1 (amended): when the command line is accepted with a payload in
    [notices] that is truthy, and the session resolves to an account, then
    [--create] was supplied, the payload is what its last argument was
    normalised to, and the command calls [create_notices] exactly once,
    with that account, the label and that payload; it calls no other
    notices operation, and its outcome is the outcome of that call. *)
Theorem C1_truthy_payload_is_created_exactly_once
    (occs : list occurrence) (st st1 : state) (h : api_handle) (u : pyval) :
  parse_args W occs st = (Ok tt, st1) ->
  truthy (notices (args st1)) = true ->
  get_server_api W (token (args st1)) (site (args st1)) = Ok h ->
  on_check_server h = Ok tt ->
  resolved_account h (args st1) = Some u ->
  supplied Create occs = true
  /\ (exists v, last_create occs = Some v
                /\ normalized W v = Some (notices (args st1)))
  /\ fst (notices_command W occs st)
     = on_create_notices h u (label (args st1)) (notices (args st1))
  /\ created (trace (snd (notices_command W occs st)))
     = (created (trace st) ++ [(u, label (args st1), notices (args st1))])%list
  /\ filter is_notices_operation (api_calls (trace (snd (notices_command W occs st))))
     = (filter is_notices_operation (api_calls (trace st))
        ++ [create_notices u (label (args st1)) (notices (args st1))])%list.
Proof.
  intros Hparse Hp Hapi Hcheck Hacc.
  destruct (parse_args_ok W _ _ _ Hparse) as (Ht & _ & _ & _ & Hnone & Hlast).
  destruct (resolve_session_ok W _ _ _ Hapi Hcheck Hacc) as [Hs _].
  destruct (session_calls_quiet (args st1)) as (Hq1 & Hq2 & _).
  assert (Hcreate : supplied Create occs = true).
  { destruct (supplied Create occs); [reflexivity|].
    rewrite Hnone in Hp by reflexivity. discriminate. }
  split; [exact Hcreate|]. split.
  { destruct (last_create_some _ Hcreate) as [v Hv]. exists v. auto. }
  rewrite notices_command_eq, Hparse. unfold main. rewrite api_user_eq, Hs.
  rewrite (main_body_create _ h) by (try reflexivity; exact Hp).
  cbn [fst snd args trace user label notices set_user set_api].
  rewrite Ht, !created_app, !api_calls_app, !filter_app, Hq1, Hq2, !app_nil_r.
  repeat split.
Qed.

(** C2: with a falsy payload in [notices] and neither [remove] nor [get]
    set (whether or not [--create] was supplied) the body of [main] returns
    at once and leaves the store as it is: no API call, no output.  Around
    it, the decorated [main] calls none of [create_notices],
    [remove_notices], [notices] whatever the collaborators answer, and
    logs nothing when it returns. *)
Theorem C2_falsy_payload_dispatches_nothing (st : state) :
  truthy (notices (args st)) = false ->
  remove (args st) = false ->
  get (args st) = false ->
  main_body st = (Ok tt, st)
  /\ filter is_notices_operation (api_calls (trace (snd (main W st))))
     = filter is_notices_operation (api_calls (trace st))
  /\ (fst (main W st) = Ok tt ->
      logged (trace (snd (main W st))) = logged (trace st)).
Proof.
  intros Hp Hr Hg. split; [apply main_body_idle; assumption|].
  unfold main. rewrite api_user_eq.
  destruct (resolve_session_cases W st)
    as [(st1 & h & -> & _ & _ & _ & Hp1 & Hr1 & Hg1 & Hlog & Hcalls)
       |(e & st' & -> & Hcalls)].
  - rewrite main_body_idle by congruence. cbn. auto.
  - cbn. split; [exact Hcalls|discriminate].
Qed.

(** C7: when [--user] was omitted and the identity query gives no login,
    the wrapped handler is not run: the store holds one error message,
    logged after [check_server] and [user] and with no mutation call made,
    and [BinstarError] is raised.  In general, for any handler, either the
    decorator raises, with the same outcome whatever the handler, or it
    runs the handler on a store whose namespace has an API handle and an
    account that is not [None]. *)
Theorem C7_unresolved_identity_fails_before_any_mutation
    (A : Type) (func : M state A) (st : state) (h : api_handle)
    (whoami : list (string * pyval)) :
  user (args st) = PyNone ->
  get_server_api W (token (args st)) (site (args st)) = Ok h ->
  on_check_server h = Ok tt ->
  on_user h = Ok whoami ->
  dict_get whoami "login" = PyNone ->
  api_user W func st
  = (Raise (BinstarError unresolved_owner),
     {| args := set_api h (args st);
        trace := (trace st ++ [Call check_server; Call user_;
                               Log logger ERROR unresolved_owner])%list |})
  /\ filter is_mutation (api_calls (trace (snd (api_user W func st))))
     = filter is_mutation (api_calls (trace st))
  /\ (forall s : state,
        (exists s1 h1, user (args s1) <> PyNone /\ api (args s1) = Some h1
                       /\ forall B (g : M state B), api_user W g s = g s1)
        \/ (exists e s', forall B (g : M state B), api_user W g s = (Raise e, s'))).
Proof.
  intros Hu Hapi Hcheck Hwho Hlogin.
  assert (Hrun : api_user W func st
                 = (Raise (BinstarError unresolved_owner),
                    {| args := set_api h (args st);
                       trace := (trace st ++ [Call check_server; Call user_;
                                              Log logger ERROR unresolved_owner])%list |})).
  { rewrite api_user_eq.
    unfold resolve_session, bind, gets, answer, setattr, invoke, emit, modify.
    rewrite Hapi. cbn. rewrite Hcheck, Hu, Hwho. cbn. rewrite Hlogin. cbn.
    unfold set_user, set_api. cbn. rewrite Hu, <- !app_assoc. reflexivity. }
  rewrite Hrun. split; [reflexivity|]. split.
  { cbn. rewrite api_calls_app, filter_app. cbn. apply app_nil_r. }
  intros s. destruct (resolve_session_cases W s)
    as [(s1 & h1 & Hs & Hh1 & Hu1 & _)|(e & s' & Hs & _)].
  - left. exists s1, h1. repeat split; try assumption.
    intros B g. rewrite api_user_eq, Hs. reflexivity.
  - right. exists e, s'. intros B g. rewrite api_user_eq, Hs. reflexivity.
Qed.

(** C6 (amended): at most one of the three actions is supplied in a
    command line the parser accepts.  When two different members of the
    group are supplied, parsing raises, so the handler is never entered and
    no API call is made; the refusal is the usage error of the group, with
    status 2, unless it already came from normalising a [--create]
    argument.  Supplying none of the three is accepted. *)
Theorem C6_two_actions_are_rejected_at_parse_time
    (occs : list occurrence) (st : state) (a b : action) :
  supplied a occs = true ->
  supplied b occs = true ->
  a <> b ->
  exists e st',
    parse_args W occs st = (Raise e, st')
    /\ notices_command W occs st = (Raise e, st')
    /\ api_calls (trace st') = api_calls (trace st)
    /\ ((e = SystemExit 2 /\ exists msg, trace st' = (trace st ++ [ParserError msg])%list)
        \/ supplied Create occs = true).
Proof.
  intros Ha Hb Hab. rewrite notices_command_eq.
  destruct (parse_args W occs st) as [[[]|e] st'] eqn:Hparse.
  - destruct (parse_args_ok W _ _ _ Hparse) as (_ & Hone & _).
    destruct Hab. apply Hone; assumption.
  - exists e, st'. rewrite parse_args_eq in Hparse.
    destruct (consume_raise W _ _ _ _ _ Hparse) as (Hcalls & Hwhy).
    repeat split; assumption.
Qed.

(** C8: when [--get] is supplied on an accepted command line, the session
    resolves to an account and the server answers, the command calls
    [notices] with that account and the label, then logs the answer as
    [json.dumps(answer, indent=2)] at level INFO, and returns: exit
    status 0.  For the answer [{"notices": []}] the text logged is the
    three lines [{], two spaces and ["notices": []], and [}]. *)
Theorem C8_get_fetches_and_prints_indented_json
    (occs : list occurrence) (st st1 : state) (h : api_handle)
    (u fetched : pyval) :
  supplied Get occs = true ->
  parse_args W occs st = (Ok tt, st1) ->
  get_server_api W (token (args st1)) (site (args st1)) = Ok h ->
  on_check_server h = Ok tt ->
  resolved_account h (args st1) = Some u ->
  on_notices h u (label (args st1)) = Ok fetched ->
  notices_command W occs st
  = (Ok tt,
     {| args := set_user u (set_api h (args st1));
        trace := (trace st ++ session_calls (args st1)
                  ++ [Call (notices_ u (label (args st1)));
                      Log logger INFO (json_dumps 2 fetched)])%list |})
  /\ exit_status (fst (notices_command W occs st)) = Some 0
  /\ json_dumps 2 (PyDict [("notices", PyList [])])
     = "{" +:+ newline +:+ "  " +:+ dquote +:+ "notices" +:+ dquote +:+ ": []"
       +:+ newline +:+ "}".
Proof.
  intros Hget Hparse Hapi Hcheck Hacc Hfetch.
  destruct (parse_args_ok W _ _ _ Hparse) as (Ht & Hone & Hr & Hg & Hnone & _).
  destruct (resolve_session_ok W _ _ _ Hapi Hcheck Hacc) as [Hs _].
  assert (Hrm : remove (args st1) = false).
  { rewrite Hr. destruct (supplied Remove occs) eqn:E; [|reflexivity].
    discriminate (Hone Remove Get E Hget). }
  assert (Hp : notices (args st1) = PyNone).
  { apply Hnone. destruct (supplied Create occs) eqn:E; [|reflexivity].
    discriminate (Hone Create Get E Hget). }
  assert (Hrun : notices_command W occs st
                 = (Ok tt,
                    {| args := set_user u (set_api h (args st1));
                       trace := (trace st ++ session_calls (args st1)
                                 ++ [Call (notices_ u (label (args st1)));
                                     Log logger INFO (json_dumps 2 fetched)])%list |})).
  { rewrite notices_command_eq, Hparse. unfold main. rewrite api_user_eq, Hs.
    rewrite (main_body_get _ h fetched); cbn [args trace]; try reflexivity.
    - rewrite Ht, <- app_assoc. reflexivity.
    - cbn. rewrite Hp. reflexivity.
    - cbn. exact Hrm.
    - cbn. rewrite Hg. exact Hget.
    - cbn. exact Hfetch. }
  rewrite Hrun. repeat split.
Qed.

End Dispatcher.

(** *** The statements at concrete inputs *)

Import Samples.

Lemma C1_witness_create_a_1_with_label_beta :
  created (trace (snd (notices_command bare [OptCreate object_a_1; OptLabel "beta"]
                         (fresh None None))))
  = [(PyStr "alice", "beta", PyDict [("a", PyInt 1)])].
Proof.
  edestruct (C1_truthy_payload_is_created_exactly_once bare
               [OptCreate object_a_1; OptLabel "beta"] (fresh None None))
    as (_ & _ & _ & H & _);
    [reflexivity | reflexivity | reflexivity | reflexivity | reflexivity | exact H].
Defined.

(** [--create '{}']: the argument is normalised to the empty object and
    stored, and the command returns without a single [create_notices]. *)
Lemma C1_counterexample_empty_object_is_not_created :
  supplied Create [OptCreate "{}"] = true
  /\ parse_args bare [OptCreate "{}"] (fresh None None)
     = (Ok tt, {| args := set_notices (PyDict []) (fresh_namespace None None);
                  trace := [] |})
  /\ fst (notices_command bare [OptCreate "{}"] (fresh None None)) = Ok tt
  /\ created (trace (snd (notices_command bare [OptCreate "{}"] (fresh None None)))) = [].
Proof. repeat split. Qed.

Lemma C2_witness_create_empty_object :
  main_body {| args := set_notices (PyDict []) (fresh_namespace None None); trace := [] |}
  = (Ok tt, {| args := set_notices (PyDict []) (fresh_namespace None None); trace := [] |}).
Proof.
  apply (C2_falsy_payload_dispatches_nothing bare
           {| args := set_notices (PyDict []) (fresh_namespace None None); trace := [] |});
    reflexivity.
Defined.

Lemma normalize_non_string_exits_1 :
  forall W st,
    NoticesAction_call W (PyInt 7) st
    = (Raise (SystemExit 1),
       {| args := args st; trace := (trace st ++ [Log logger ERROR not_a_string])%list |}).
Proof. reflexivity. Qed.

Lemma C3_witness_literal_object :
  notices (args (snd (NoticesAction_call bare (PyStr object_a_1) (fresh None None))))
  = PyDict [("a", PyInt 1)].
Proof.
  apply (C3_literal_json_is_parsed_directly bare object_a_1 (PyDict [("a", PyInt 1)])
           (fresh None None)); reflexivity.
Defined.

(** With a file named [1] that contains [2] in the working directory, the
    argument [1] is valid JSON for the number 1 and is normalised to 2. *)
Lemma C3_counterexample_file_named_like_the_json :
  json_loads with_file_named_1 "1" = Ok (PyInt 1)
  /\ NoticesAction_call with_file_named_1 (PyStr "1") (fresh None None)
     = (Ok tt, {| args := set_notices (PyInt 2) (fresh_namespace None None); trace := [] |})
  /\ notices (args (snd (NoticesAction_call with_file_named_1 (PyStr "1") (fresh None None))))
     <> PyInt 1.
Proof. repeat split. discriminate. Qed.

Lemma C4_witness_notice_json :
  notices_command with_notice_file [OptCreate "./notice.json"] (fresh None None)
  = notices_command with_notice_file [OptCreate object_x_2] (fresh None None)
  /\ created (trace (snd (notices_command with_notice_file [OptCreate "./notice.json"]
                            (fresh None None))))
     = [(PyStr "alice", "main", PyDict [("x", PyInt 2)])].
Proof.
  split; [|reflexivity].
  destruct (C4_file_is_normalized_like_its_contents with_notice_file
              "./notice.json" object_x_2 (PyDict [("x", PyInt 2)])
              eq_refl eq_refl eq_refl eq_refl) as (_ & _ & H).
  exact (H [] [] (fresh None None)).
Defined.

(** [notice.json] is readable and contains the valid JSON text [1];
    normalising the path stores 1, normalising its contents stores 2,
    because a file named [1] exists. *)
Lemma C4_counterexample_contents_name_a_file :
  path_exists with_file_named_1 "notice.json" = Ok true
  /\ path_read with_file_named_1 "notice.json" = Ok "1"
  /\ json_loads with_file_named_1 "1" = Ok (PyInt 1)
  /\ notices (args (snd (NoticesAction_call with_file_named_1 (PyStr "notice.json")
                           (fresh None None)))) = PyInt 1
  /\ notices (args (snd (NoticesAction_call with_file_named_1 (PyStr "1")
                           (fresh None None)))) = PyInt 2.
Proof. repeat split. Qed.

(** C5 at an argument of 256 letters on a system whose file names hold at
    most 255 bytes: the argument names no file and is not JSON, yet the
    action raises the [OSError] of the existence test, logs nothing and
    does not reach [SystemExit(1)]. *)
Theorem C5_overlong_argument_escapes_unlogged :
  path_exists name_limit (letters 256) = Raise (OSError "[Errno 36] File name too long")
  /\ json_loads name_limit (letters 256) = Raise (JSONDecodeError "Expecting value")
  /\ NoticesAction_call name_limit (PyStr (letters 256)) (fresh None None)
     = (Raise (OSError "[Errno 36] File name too long"), fresh None None)
  /\ fst (NoticesAction_call name_limit (PyStr (letters 256)) (fresh None None))
     <> Raise (SystemExit 1)
  /\ logged (trace (snd (NoticesAction_call name_limit (PyStr (letters 256))
                           (fresh None None)))) = [].
Proof. repeat split. discriminate. Qed.

Lemma C6_witness_get_and_remove :
  exists e st',
    parse_args bare [OptGet; OptRemove] (fresh None None) = (Raise e, st')
    /\ notices_command bare [OptGet; OptRemove] (fresh None None) = (Raise e, st')
    /\ api_calls (trace st') = api_calls (trace (fresh None None))
    /\ ((e = SystemExit 2
         /\ exists msg, trace st' = (trace (fresh None None) ++ [ParserError msg])%list)
        \/ supplied Create [OptGet; OptRemove] = true).
Proof.
  apply (C6_two_actions_are_rejected_at_parse_time bare [OptGet; OptRemove]
           (fresh None None) Get Remove); [reflexivity | reflexivity | discriminate].
Defined.

(** A command line without any of the three actions is accepted, and the
    handler runs with none selected. *)
Lemma C6_counterexample_no_action_is_accepted :
  parse_args bare [OptLabel "main"] (fresh None None) = (Ok tt, fresh None None)
  /\ supplied Create [OptLabel "main"] = false
  /\ supplied Remove [OptLabel "main"] = false
  /\ supplied Get [OptLabel "main"] = false
  /\ fst (notices_command bare [OptLabel "main"] (fresh None None)) = Ok tt.
Proof. repeat split. Qed.

Lemma C7_witness_nobody_logged_in :
  api_user bare_anonymous main_body (fresh None None)
  = (Raise (BinstarError unresolved_owner),
     {| args := set_api anonymous_server (fresh_namespace None None);
        trace := [Call check_server; Call user_; Log logger ERROR unresolved_owner] |}).
Proof.
  apply (C7_unresolved_identity_fails_before_any_mutation bare_anonymous unit main_body
           (fresh None None) anonymous_server [] eq_refl eq_refl eq_refl eq_refl eq_refl).
Defined.

Lemma C8_witness_get_label_main :
  logged (trace (snd (notices_command bare [OptGet; OptLabel "main"] (fresh None None))))
  = [(logger, INFO,
      "{" +:+ newline +:+ "  " +:+ dquote +:+ "notices" +:+ dquote +:+ ": []"
      +:+ newline +:+ "}")]
  /\ exit_status (fst (notices_command bare [OptGet; OptLabel "main"] (fresh None None)))
     = Some 0.
Proof.
  edestruct (C8_get_fetches_and_prints_indented_json bare
               [OptGet; OptLabel "main"] (fresh None None))
    as (H & H0 & _);
    [reflexivity | reflexivity | reflexivity | reflexivity | reflexivity | reflexivity |].
  rewrite H. split; reflexivity.
Defined.

End NoticesFacts.

(** * Properties of the legacy bridge *)

Module PluginsFacts.
Import Plugins.

Lemma filter_keeps_all {A} (P : A -> Prop) `{!forall x, Decision (P x)} (l : list A) :
  (forall x, x ∈ l -> P x) -> filter P l = l.
Proof.
  induction l as [|x l IH]; intros Hall; [reflexivity|].
  rewrite filter_cons_True by (apply Hall; left).
  f_equal. apply IH. intros y Hy. apply Hall. right. exact Hy.
Qed.

Section Passthrough.
Context (binstar_main : list string -> bool -> result unit).
Context (environ : string -> option string).
Context (parser : ArgumentParser).
Context (deprecated_text : string).

Local Abbreviation forwarded p := (filter (fun arg => arg <> "org") (drop 1 (argv p))).
Local Abbreviation passthrough := (_subcommand binstar_main).
Local Abbreviation mounted :=
  (load_legacy_subcommands binstar_main environ parser deprecated_text []).
Local Abbreviation mount_one :=
  (mount_legacy binstar_main environ parser deprecated_text).

(** The passthrough calls the legacy dispatcher once, without plugin main,
    on the process arguments after the program name that differ from
    [org]. *)
Lemma _subcommand_eq p :
  passthrough p
  = (binstar_main (forwarded p) false,
     {| argv := argv p; trace := (trace p ++ [Dispatch (forwarded p) false])%list |}).
Proof. reflexivity. Qed.

(** Every argument other than [org] is forwarded, in the order given, and
    nothing else is. *)
Lemma forwarded_spec p :
  forwarded p `sublist_of` drop 1 (argv p)
  /\ (forall arg, arg ∈ forwarded p <-> arg <> "org" /\ arg ∈ drop 1 (argv p))
  /\ ("org" ∉ drop 1 (argv p) -> forwarded p = drop 1 (argv p)).
Proof.
  split; [apply sublist_filter|]. split.
  - intros arg. exact (list_elem_of_filter (fun a : string => a <> "org") _ arg).
  - intros Hno. apply filter_keeps_all. intros arg Harg ->. contradiction.
Qed.

Lemma _deprecate_eq {A} name (func : M process A) p :
  _deprecate name func p
  = func {| argv := argv p;
            trace := (trace p ++ [Warn log (deprecation_message name)])%list |}.
Proof. reflexivity. Qed.

Lemma dispatched_app t1 t2 : dispatched (t1 ++ t2) = (dispatched t1 ++ dispatched t2)%list.
Proof. apply omap_app. Qed.

Lemma warnings_app t1 t2 : warnings (t1 ++ t2) = (warnings t1 ++ warnings t2)%list.
Proof. apply omap_app. Qed.

(** *** Mounting *)

Lemma notebook_is_legacy : "notebook" ∉ SUBCOMMANDS_WITH_NEW_CLI.
Proof. apply (bool_decide_eq_false_1 _). vm_compute. reflexivity. Qed.

Lemma notebook_goes_to_main :
  "notebook" ∉ ({[ "login"; "logout"; "whoami" ]} : gset string).
Proof. apply (bool_decide_eq_false_1 _). vm_compute. reflexivity. Qed.

Lemma notebook_is_hidden : "notebook" ∉ NON_HIDDEN_SUBCOMMANDS.
Proof. apply (bool_decide_eq_false_1 _). vm_compute. reflexivity. Qed.

Lemma deprecated_is_known name :
  name ∈ DEPRECATED_SUBCOMMANDS -> name ∈ ALL_SUBCOMMANDS.
Proof.
  intros ->%elem_of_singleton.
  apply (bool_decide_eq_true_1 _). vm_compute. reflexivity.
Qed.

(** A handler mounted for a deprecated name: the passthrough under
    [_deprecate], with the settings that let unknown options through. *)
Local Abbreviation deprecated_passthrough m :=
  (exists target help hidden,
     m = command target (mount_name m) help hidden passthrough_settings
           (_deprecate (mount_name m) passthrough)).

Lemma mount_legacy_deprecated registry name :
  name ∈ DEPRECATED_SUBCOMMANDS ->
  exists help main_help,
    mount_one registry name
    = (registry ++ [command app name help false passthrough_settings
                      (_deprecate name passthrough);
                    command main_app name main_help true passthrough_settings
                      (_deprecate name passthrough)])%list.
Proof.
  intros Hdep. unfold mount_legacy, _mount_subcommand.
  rewrite (bool_decide_eq_true_2 _ Hdep).
  apply elem_of_singleton in Hdep. subst name.
  rewrite (bool_decide_eq_false_2 _ notebook_is_legacy), andb_false_r.
  rewrite (bool_decide_eq_true_2 _ notebook_goes_to_main).
  rewrite (bool_decide_eq_true_2 _ notebook_is_hidden).
  cbn [negb]. rewrite <- app_assoc. eexists _, _. reflexivity.
Qed.

Lemma mount_legacy_names registry name :
  exists added,
    mount_one registry name = (registry ++ added)%list
    /\ Forall (fun m => mount_name m = name) added.
Proof.
  unfold mount_legacy, _mount_subcommand, _load_new_subcommand.
  repeat match goal with
         | |- context [if ?b then _ else _] => destruct b
         end;
    rewrite <- ?app_assoc; eexists; (split; [reflexivity|]);
    repeat constructor.
Qed.

Lemma mounted_fold names : forall registry,
  exists added,
    foldl mount_one registry names = (registry ++ added)%list
    /\ (forall m, m ∈ added -> mount_name m ∈ DEPRECATED_SUBCOMMANDS ->
                  deprecated_passthrough m)
    /\ (forall name, name ∈ names -> name ∈ DEPRECATED_SUBCOMMANDS ->
        exists help, command app name help false passthrough_settings
                       (_deprecate name passthrough) ∈ added).
Proof.
  induction names as [|n names IH]; intros registry.
  - exists []. rewrite app_nil_r. split; [reflexivity|].
    split; [intros m Hm; inversion Hm|intros name Hn; inversion Hn].
  - cbn [foldl].
    destruct (IH (mount_one registry n)) as (rest & -> & Hshape & Hthere).
    destruct (decide (n ∈ DEPRECATED_SUBCOMMANDS)) as [Hdep|Hnot].
    + destruct (mount_legacy_deprecated registry n Hdep) as (help & main_help & ->).
      eexists. split; [rewrite <- app_assoc; reflexivity|]. split.
      * intros m Hm Hmdep. apply elem_of_app in Hm as [Hm|Hm]; [|auto].
        apply elem_of_cons in Hm as [->|Hm];
          [eexists _, _, _; reflexivity|].
        apply list_elem_of_singleton in Hm as ->. eexists _, _, _; reflexivity.
      * intros name Hname Hnd. apply elem_of_cons in Hname as [->|Hname].
        -- exists help. apply elem_of_app. left. left.
        -- destruct (Hthere name Hname Hnd) as [h Hh]. exists h.
           apply elem_of_app. right. exact Hh.
    + destruct (mount_legacy_names registry n) as (added & -> & Hnames).
      eexists. split; [rewrite <- app_assoc; reflexivity|]. split.
      * intros m Hm Hmdep. apply elem_of_app in Hm as [Hm|Hm]; [|auto].
        rewrite Forall_forall in Hnames. rewrite (Hnames m Hm) in Hmdep.
        contradiction.
      * intros name Hname Hnd. apply elem_of_cons in Hname as [->|Hname];
          [contradiction|].
        destruct (Hthere name Hname Hnd) as [h Hh]. exists h.
        apply elem_of_app. right. exact Hh.
Qed.

(** C10: for a name in the deprecated set, every handler the bridge
    mounts under that name is the passthrough wrapped by [_deprecate], and
    unless the bridge is switched off one is mounted on the [org]
    application.  Invoking it logs exactly one warning, which names
    ["anaconda org <name> ..."], and then does what the plain passthrough
    does: the same call of the legacy dispatcher with the same outcome, so
    the deprecation itself never fails. *)
Theorem C10_deprecated_subcommand_warns_then_passes_through (name : string) :
  name ∈ DEPRECATED_SUBCOMMANDS ->
  (forall m, m ∈ mounted -> mount_name m = name ->
     exists target help hidden,
       m = command target name help hidden passthrough_settings
             (_deprecate name passthrough))
  /\ (getenv_flag environ "ANACONDA_CLIENT_FORCE_STANDALONE" = false ->
      exists help, command app name help false passthrough_settings
                     (_deprecate name passthrough) ∈ mounted)
  /\ (forall p : process,
        _deprecate name passthrough p
        = (binstar_main (forwarded p) false,
           {| argv := argv p;
              trace := (trace p ++ [Warn log (deprecation_message name);
                                    Dispatch (forwarded p) false])%list |})
        /\ fst (_deprecate name passthrough p) = fst (passthrough p)
        /\ dispatched (trace (snd (_deprecate name passthrough p)))
           = dispatched (trace (snd (passthrough p)))
        /\ warnings (trace (snd (_deprecate name passthrough p)))
           = (warnings (trace p) ++ [deprecation_message name])%list)
  /\ (exists before,
        deprecation_message name
        = before +:+ dquote +:+ "anaconda org " +:+ name +:+ " ..." +:+ dquote).
Proof.
  intros Hdep.
  assert (Hload : exists added,
             mounted = added
             /\ (forall m, m ∈ added -> mount_name m ∈ DEPRECATED_SUBCOMMANDS ->
                           deprecated_passthrough m)
             /\ (getenv_flag environ "ANACONDA_CLIENT_FORCE_STANDALONE" = false ->
                 exists help, command app name help false passthrough_settings
                                (_deprecate name passthrough) ∈ added)).
  { unfold load_legacy_subcommands.
    destruct (getenv_flag environ "ANACONDA_CLIENT_FORCE_STANDALONE").
    - exists []. split; [reflexivity|]. split; [intros m Hm; inversion Hm|discriminate].
    - destruct (mounted_fold (elements ALL_SUBCOMMANDS) []) as (added & -> & Hshape & Hthere).
      exists added. split; [reflexivity|]. split; [exact Hshape|]. intros _.
      apply Hthere; [|exact Hdep]. apply elem_of_elements, deprecated_is_known, Hdep. }
  destruct Hload as (added & -> & Hshape & Hthere).
  split; [|split; [exact Hthere|split]].
  - intros m Hm Hname. subst name. apply Hshape; assumption.
  - intros p. rewrite _deprecate_eq, !_subcommand_eq. cbn [argv trace fst snd].
    rewrite <- app_assoc. repeat split.
    + rewrite !dispatched_app. reflexivity.
    + rewrite !warnings_app. reflexivity.
  - exists ("The existing anaconda-client commands will be deprecated. To maintain compatibility, "
            +:+ "please either pin `anaconda-client<2` or update your system call with the `org` prefix, "
            +:+ "e.g. ").
    reflexivity.
Qed.

(** C9 at the input [anaconda org upload --user org pkg.tar.bz2]: the
    passthrough hands the legacy dispatcher [upload --user pkg.tar.bz2].
    The nesting keyword is gone and so is the value of [--user], which
    should have been forwarded as it was. *)
Theorem C9_value_equal_to_org_is_dropped :
  dispatched (trace (snd (passthrough
    {| argv := ["anaconda"; "org"; "upload"; "--user"; "org"; "pkg.tar.bz2"];
       trace := [] |})))
  = [(["upload"; "--user"; "pkg.tar.bz2"], false)]
  /\ ["upload"; "--user"; "pkg.tar.bz2"] <> ["upload"; "--user"; "org"; "pkg.tar.bz2"].
Proof. split; [reflexivity|discriminate]. Qed.

End Passthrough.

Lemma C10_witness_notebook :
  _deprecate "notebook" (_subcommand Samples.dispatcher_ok)
    {| argv := ["anaconda"; "notebook"; "upload"; "analysis.ipynb"]; trace := [] |}
  = (Ok tt,
     {| argv := ["anaconda"; "notebook"; "upload"; "analysis.ipynb"];
        trace := [Warn log (deprecation_message "notebook");
                  Dispatch ["notebook"; "upload"; "analysis.ipynb"] false] |}).
Proof.
  destruct (C10_deprecated_subcommand_warns_then_passes_through
              Samples.dispatcher_ok (fun _ => None) Samples.legacy_parser "(deprecated)"
              "notebook") as (_ & _ & H & _).
  - apply (bool_decide_eq_true_1 _). vm_compute. reflexivity.
  - apply (H {| argv := ["anaconda"; "notebook"; "upload"; "analysis.ipynb"];
                trace := [] |}).
Defined.

End PluginsFacts.

(** * Further properties of the notices command *)

Module NoticesMore.
Import Notices NoticesFacts.

Local Abbreviation stored v st :=
  {| args := set_notices v (args st); trace := trace st |}.

Local Abbreviation failed msg st :=
  {| args := args st; trace := app (trace st) [Log logger ERROR msg] |}.

Section Normalizer.
Context (W : collaborators).

Lemma normalized_runs v data st :
  normalized W v = Some data ->
  NoticesAction_call W (PyStr v) st = (Ok tt, stored data st).
Proof.
  unfold normalized, NoticesAction_call, bind, answer, ret, setattr, modify.
  destruct (path_exists W v) as [[|]|]; [| |discriminate].
  - destruct (path_read W v) as [text|[]]; try discriminate.
    destruct (json_loads W text) as [d|[]]; try discriminate.
    intros [= ->]. reflexivity.
  - destruct (json_loads W v) as [d|[]]; try discriminate.
    intros [= ->]. reflexivity.
Qed.

(** X1: whatever the argument and the collaborators, [NoticesAction] ends
    in one of three ways: it stores a payload, touching nothing else and
    logging nothing; it logs exactly one error and raises [SystemExit(1)]
    with the namespace as it was; or it lets through, unlogged and with the
    store untouched, an exception that the existence test, reading the
    file or [json.loads] raised.  An argument that is not a string ends the
    second way, and a failure of the existence test always ends the
    third. *)
Theorem X1_normalizer_outcomes (values : pyval) (st : state) :
  ((exists data,
       NoticesAction_call W values st = (Ok tt, stored data st)
       /\ exists v, values = PyStr v /\ normalized W v = Some data)
   \/ (exists msg,
          NoticesAction_call W values st = (Raise (SystemExit 1), failed msg st))
   \/ (exists e v,
          NoticesAction_call W values st = (Raise e, st)
          /\ values = PyStr v
          /\ (path_exists W v = Raise e
              \/ path_read W v = Raise e
              \/ exists text, json_loads W text = Raise e)))
  /\ (forall v e, values = PyStr v -> path_exists W v = Raise e ->
                  NoticesAction_call W values st = (Raise e, st)).
Proof.
  split.
  2:{ intros v e -> He. unfold NoticesAction_call, bind, answer.
      rewrite He. reflexivity. }
  destruct values as [| | | |v| |];
    try (right; left; exists not_a_string; reflexivity).
  unfold NoticesAction_call, bind, answer, ret, raise, setattr, modify,
    logger_error, emit, modify.
  destruct (path_exists W v) as [[|]|e] eqn:Hex.
  - destruct (path_read W v) as [text|e] eqn:Hread.
    + destruct (json_loads W text) as [data|e] eqn:Hloads.
      * left. exists data. split; [reflexivity|]. exists v. split; [reflexivity|].
        unfold normalized. rewrite Hex, Hread, Hloads. reflexivity.
      * destruct e;
          try (right; right; eexists _, v; split; [reflexivity|];
               split; [reflexivity|]; right; right; exists text; exact Hloads).
        right. left. eexists. reflexivity.
    + destruct e;
        try (right; right; eexists _, v; split; [reflexivity|];
             split; [reflexivity|]; right; left; exact Hread).
      right. left. eexists. reflexivity.
  - destruct (json_loads W v) as [data|e] eqn:Hloads.
    + left. exists data. split; [reflexivity|]. exists v. split; [reflexivity|].
      unfold normalized. rewrite Hex, Hloads. reflexivity.
    + destruct e;
        try (right; right; eexists _, v; split; [reflexivity|];
             split; [reflexivity|]; right; right; exists v; exact Hloads).
      right. left. eexists. reflexivity.
  - right. right. exists e, v. split; [reflexivity|]. split; [reflexivity|].
    left. exact Hex.
Qed.

(** X2: an argument that names an existing readable file whose contents
    are not valid JSON is refused with the parse message and
    [SystemExit(1)], the namespace unchanged, even when the argument itself
    would parse as JSON; the whole command then stops before any API
    call. *)
Theorem X2_file_with_invalid_json_exits_1 (p text m : string) (st : state) :
  path_exists W p = Ok true ->
  path_read W p = Ok text ->
  json_loads W text = Raise (JSONDecodeError m) ->
  NoticesAction_call W (PyStr p) st = (Raise (SystemExit 1), failed invalid_json st)
  /\ notices_command W [OptCreate p] st
     = (Raise (SystemExit 1),
        {| args := set_defaults (args st);
           trace := app (trace st) [Log logger ERROR invalid_json] |}).
Proof.
  intros Hex Hread Hloads.
  assert (Hcall : forall s, NoticesAction_call W (PyStr p) s
                            = (Raise (SystemExit 1), failed invalid_json s)).
  { intros s. rewrite (normalize_file W p text s Hex Hread), Hloads. reflexivity. }
  split; [apply Hcall|].
  unfold notices_command, parse_args. rewrite !bind_eq. cbn [setattr modify].
  cbn [consume]. rewrite bind_eq. unfold take_action. cbn [group_action conflicts].
  cbn [List.find seen_in existsb]. rewrite bind_eq. cbn [run_action].
  rewrite Hcall. reflexivity.
Qed.

End Normalizer.

(** *** The parser *)

Section Parser.
Context (W : collaborators).

Lemma find_conflict_none_intro seen a :
  (forall c, seen_in seen c = true -> c = a) ->
  List.find (seen_in seen) (conflicts a) = None.
Proof.
  intros Hone.
  destruct a; cbn;
    repeat match goal with
           | |- context [seen_in seen ?x] =>
               let E := fresh in
               destruct (seen_in seen x) eqn:E;
               [discriminate (Hone _ E)|]
           end; reflexivity.
Qed.

Lemma selects_group a o : selects a o = true <-> group_action o = Some a.
Proof.
  unfold selects. destruct (group_action o) as [b|]; [|split; discriminate].
  rewrite action_eqb_eq. split; congruence.
Qed.

Lemma seen_in_cons a seen c : seen_in (a :: seen) c = (action_eqb c a || seen_in seen c).
Proof. reflexivity. Qed.

(** An option is accepted when no other member of the group was seen and,
    for [--create], its argument normalises. *)
Lemma take_action_accepts seen o st :
  (forall a, selects a o = true -> forall c, seen_in seen c = true -> c = a) ->
  (forall v, o = OptCreate v -> normalized W v <> None) ->
  exists seen' st1,
    take_action W seen o st = (Ok seen', st1)
    /\ (forall c, seen_in seen' c = (selects c o || seen_in seen c)).
Proof.
  intros Hone Hnorm. unfold take_action.
  destruct (group_action o) as [a|] eqn:Ha.
  - rewrite find_conflict_none_intro
      by (apply Hone; apply selects_group; exact Ha).
    assert (Hseen : forall c, seen_in (a :: seen) c = (selects c o || seen_in seen c))
      by (intros c; unfold selects; rewrite Ha; reflexivity).
    rewrite bind_eq.
    destruct o as [v|v|v| |]; try discriminate Ha; cbn [run_action].
    + destruct (normalized W v) as [data|] eqn:Hd; [|destruct (Hnorm v eq_refl Hd)].
      rewrite (normalized_runs W v data st Hd). cbn. eauto.
    + cbn. eauto.
    + cbn. eauto.
  - rewrite bind_eq.
    assert (Hseen : forall c, seen_in seen c = (selects c o || seen_in seen c))
      by (intros c; unfold selects; rewrite Ha; reflexivity).
    destruct o as [v|v|v| |]; try discriminate Ha; cbn; eauto.
Qed.

Lemma consume_accepts occs : forall seen st,
  (forall a, supplied a occs = true ->
   forall b, seen_in seen b = true \/ supplied b occs = true -> b = a) ->
  (forall v, OptCreate v ∈ occs -> normalized W v <> None) ->
  exists st1, consume W seen occs st = (Ok tt, st1).
Proof.
  induction occs as [|o occs IH]; intros seen st Hone Hnorm.
  - exists st. reflexivity.
  - cbn [consume]. rewrite bind_eq.
    destruct (take_action_accepts seen o st) as (seen' & s0 & -> & Hseen).
    + intros a Ha c Hc. apply (Hone a); [|left; exact Hc].
      rewrite supplied_cons, Ha. reflexivity.
    + intros v ->. apply Hnorm. left.
    + apply IH.
      * intros a Ha b Hb. apply (Hone a).
        { rewrite supplied_cons, Ha. apply orb_true_r. }
        rewrite supplied_cons. destruct Hb as [Hb|Hb].
        -- rewrite Hseen in Hb. apply orb_true_iff in Hb as [Hb|Hb];
             [right; rewrite Hb; reflexivity|left; exact Hb].
        -- right. rewrite Hb. apply orb_true_r.
      * intros v Hv. apply Hnorm. right. exact Hv.
Qed.

Lemma consume_normalizes occs : forall seen st st1,
  consume W seen occs st = (Ok tt, st1) ->
  forall v, OptCreate v ∈ occs -> normalized W v <> None.
Proof.
  induction occs as [|o occs IH]; intros seen st st1 Hrun v Hv.
  - inversion Hv.
  - cbn [consume] in Hrun. rewrite bind_eq in Hrun.
    destruct (take_action W seen o st) as [[seen'|e] s0] eqn:Htake; [|discriminate].
    apply elem_of_cons in Hv as [<-|Hv]; [|eapply IH; eassumption].
    destruct (take_action_ok W _ _ _ _ _ Htake) as (_ & _ & _ & _ & _ & _ & Hnew).
    rewrite (Hnew v eq_refl). discriminate.
Qed.

(** What an accepted option does to [label], [user] and the attributes it
    does not own. *)
Lemma take_action_attrs seen o st seen' st1 :
  take_action W seen o st = (Ok seen', st1) ->
  label (args st1) = last_label (label (args st)) [o]
  /\ user (args st1) = last_user (user (args st)) [o]
  /\ token (args st1) = token (args st)
  /\ site (args st1) = site (args st)
  /\ api (args st1) = api (args st).
Proof.
  unfold take_action.
  destruct (group_action o) as [a|] eqn:Ha.
  - destruct (List.find (seen_in seen) (conflicts a)).
    { unfold parser_error. rewrite bind_eq. cbn. discriminate. }
    rewrite bind_eq.
    destruct o as [v|v|v| |]; try discriminate Ha; cbn [run_action].
    + destruct (NoticesAction_call W (PyStr v) st) as [[[]|e] s0] eqn:Hcall;
        [|discriminate].
      destruct (NoticesAction_stores W _ _ _ Hcall) as (data & _ & ->).
      cbn. intros [= <- <-]. repeat split.
    + cbn. intros [= <- <-]. repeat split.
    + cbn. intros [= <- <-]. repeat split.
  - rewrite bind_eq.
    destruct o as [v|v|v| |]; try discriminate Ha; cbn; intros [= <- <-];
      repeat split.
Qed.

Lemma last_label_cons current o occs :
  last_label current (o :: occs) = last_label (last_label current [o]) occs.
Proof. destruct o; reflexivity. Qed.

Lemma last_user_cons current o occs :
  last_user current (o :: occs) = last_user (last_user current [o]) occs.
Proof. destruct o; reflexivity. Qed.

Lemma consume_attrs occs : forall seen st st1,
  consume W seen occs st = (Ok tt, st1) ->
  label (args st1) = last_label (label (args st)) occs
  /\ user (args st1) = last_user (user (args st)) occs
  /\ token (args st1) = token (args st)
  /\ site (args st1) = site (args st)
  /\ api (args st1) = api (args st).
Proof.
  induction occs as [|o occs IH]; intros seen st st1.
  - cbn. intros [= <-]. repeat split.
  - cbn [consume]. rewrite bind_eq.
    destruct (take_action W seen o st) as [[seen'|e] s0] eqn:Htake; [|discriminate].
    intros Hrest.
    destruct (take_action_attrs _ _ _ _ _ Htake) as (Hl & Hu & Ht & Hs & Ha).
    destruct (IH _ _ _ Hrest) as (Hl' & Hu' & Ht' & Hs' & Ha').
    rewrite last_label_cons, last_user_cons, <- Hl, <- Hu.
    repeat split; congruence.
Qed.

(** X3: a command line is accepted exactly when all the actions on it are
    one and the same member of the group and every [--create] argument
    normalises to a payload: the existence test answers, the file, if
    there is one, is read, and the text parses. *)
Theorem X3_accepted_command_lines (occs : list occurrence) (st : state) :
  (exists st1, parse_args W occs st = (Ok tt, st1))
  <-> (forall a b, supplied a occs = true -> supplied b occs = true -> a = b)
      /\ (forall v, OptCreate v ∈ occs -> normalized W v <> None).
Proof.
  rewrite parse_args_eq. split.
  - intros [st1 Hrun]. split.
    + destruct (consume_ok W _ _ _ _ Hrun) as (_ & Hone & _).
      intros a b Ha Hb. symmetry. apply (Hone a Ha b). right. exact Hb.
    + eapply consume_normalizes. exact Hrun.
  - intros [Hone Hnorm]. apply consume_accepts; [|exact Hnorm].
    intros a Ha b [Hb|Hb]; [discriminate Hb|]. symmetry. apply Hone; assumption.
Qed.

(** X4: whenever parsing raises, the command raises the same exception on
    the same store, [main] is not entered and no API call has been made;
    the exception is the usage error with status 2 unless a [--create] was
    on the command line. *)
Theorem X4_parse_failure_reaches_no_api
    (occs : list occurrence) (st st' : state) (e : exn) :
  parse_args W occs st = (Raise e, st') ->
  notices_command W occs st = (Raise e, st')
  /\ api_calls (trace st') = api_calls (trace st)
  /\ (supplied Create occs = false ->
      e = SystemExit 2
      /\ exists msg, trace st' = (trace st ++ [ParserError msg])%list).
Proof.
  intros Hparse. rewrite notices_command_eq, Hparse. split; [reflexivity|].
  rewrite parse_args_eq in Hparse.
  destruct (consume_raise W _ _ _ _ _ Hparse) as (Hcalls & Hwhy).
  split; [exact Hcalls|]. intros Hno.
  destruct Hwhy as [Hwhy|Hwhy]; [exact Hwhy|congruence].
Qed.

Lemma parsed_label (occs : list occurrence) (st st1 : state) :
  parse_args W occs st = (Ok tt, st1) ->
  label (args st1) = last_label "main" occs.
Proof.
  rewrite parse_args_eq. intros Hparse.
  destruct (consume_attrs _ _ _ _ Hparse) as (Hl & _). exact Hl.
Qed.

(** X5: on an accepted command line the namespace holds the value of the
    last [--label], or [main] without one, the value of the last [--user],
    or [None] without one, [remove] and [get] exactly when supplied, and
    the attributes of the parent parser as they were. *)
Theorem X5_parsed_namespace (occs : list occurrence) (st st1 : state) :
  parse_args W occs st = (Ok tt, st1) ->
  label (args st1) = last_label "main" occs
  /\ user (args st1) = last_user PyNone occs
  /\ remove (args st1) = supplied Remove occs
  /\ get (args st1) = supplied Get occs
  /\ token (args st1) = token (args st)
  /\ site (args st1) = site (args st)
  /\ api (args st1) = api (args st)
  /\ trace st1 = trace st.
Proof.
  intros Hparse.
  destruct (parse_args_ok W _ _ _ Hparse) as (Ht & _ & Hr & Hg & _).
  rewrite parse_args_eq in Hparse.
  destruct (consume_attrs _ _ _ _ Hparse) as (Hl & Hu & Htok & Hsite & Hapi).
  cbn in Hl, Hu, Htok, Hsite, Hapi. repeat split; assumption.
Qed.

End Parser.

(** *** The session resolver and the dispatcher *)

Section Dispatcher.
Context (W : collaborators).

Local Abbreviation emitted t st := {| args := args st; trace := app (trace st) t |}.

Lemma main_body_remove st h :
  truthy (notices (args st)) = false ->
  remove (args st) = true ->
  api (args st) = Some h ->
  main_body st =
  (on_remove_notices h (user (args st)) (label (args st)),
   emitted [Call (remove_notices (user (args st)) (label (args st)))] st).
Proof.
  intros Hp Hr Hh. unfold main_body. rewrite bind_eq. cbn [gets].
  rewrite Hp, Hr. unfold args_api, bind, gets. rewrite Hh. reflexivity.
Qed.

Lemma main_body_get_raise st h e :
  truthy (notices (args st)) = false ->
  remove (args st) = false ->
  get (args st) = true ->
  api (args st) = Some h ->
  on_notices h (user (args st)) (label (args st)) = Raise e ->
  main_body st =
  (Raise e, emitted [Call (notices_ (user (args st)) (label (args st)))] st).
Proof.
  intros Hp Hr Hg Hh Hf. unfold main_body. rewrite bind_eq. cbn [gets].
  rewrite Hp, Hr, Hg. unfold args_api, bind, gets. rewrite Hh.
  unfold invoke, bind, emit, modify, answer, ret. rewrite Hf. reflexivity.
Qed.

Lemma api_calls_call t c : api_calls (t ++ [Call c]) = (api_calls t ++ [c])%list.
Proof. apply api_calls_app. Qed.

(** The API calls of the dispatcher on any store: none, or one notices
    operation. *)
Lemma main_body_calls st :
  exists ops,
    api_calls (trace (snd (main_body st))) = (api_calls (trace st) ++ ops)%list
    /\ (ops = [] \/ exists c, ops = [c] /\ is_notices_operation c = true).
Proof.
  unfold main_body. rewrite bind_eq. cbn [gets].
  unfold args_api, bind, gets, invoke, emit, modify, answer, ret, raise,
    logger_info, emit, modify.
  destruct (truthy (notices (args st)));
    [|destruct (remove (args st)); [|destruct (get (args st))]];
    try (destruct (api (args st)) as [h|];
         [|exists []; rewrite app_nil_r; split; [reflexivity|left; reflexivity]]).
  - eexists [_]. cbn. rewrite api_calls_call. split; [reflexivity|]. right. eauto.
  - eexists [_]. cbn. rewrite api_calls_call. split; [reflexivity|]. right. eauto.
  - eexists [_]. cbn.
    destruct (on_notices h (user (args st)) (label (args st))); cbn;
      rewrite ?api_calls_log, api_calls_call; (split; [reflexivity|]); right; eauto.
  - exists []. rewrite app_nil_r. split; [reflexivity|left; reflexivity].
Qed.

(** The API calls of the resolver on any store: none when the client
    cannot be built, else [check_server], followed by [user] exactly when
    the check passed and no account was given. *)
Lemma resolve_session_calls st :
  api_calls (trace (snd (resolve_session W st)))
  = (api_calls (trace st)
     ++ match get_server_api W (token (args st)) (site (args st)) with
        | Raise _ => []
        | Ok h =>
            match on_check_server h, user (args st) with
            | Ok _, PyNone => [check_server; user_]
            | _, _ => [check_server]
            end
        end)%list
  /\ (forall st1, resolve_session W st = (Ok tt, st1) ->
      exists h, get_server_api W (token (args st)) (site (args st)) = Ok h
                /\ on_check_server h = Ok tt).
Proof.
  unfold resolve_session, bind, gets, answer, setattr, invoke, emit, modify,
    logger_error, emit, modify, ret, raise.
  destruct (get_server_api W (token (args st)) (site (args st))) as [h|e].
  2:{ rewrite app_nil_r. split; [reflexivity|discriminate]. }
  cbn. destruct (on_check_server h) as [[]|e] eqn:Hcheck.
  2:{ cbn. rewrite api_calls_call. split; [reflexivity|discriminate]. }
  split; [|intros st1 _; exists h; split; [reflexivity|exact Hcheck]].
  destruct (user (args st)) eqn:Hu;
    try (cbn; rewrite api_calls_call; reflexivity).
  destruct (on_user h) as [whoami|e]; cbn.
  - destruct (dict_get whoami "login"); cbn;
      rewrite ?api_calls_log, !api_calls_call, <- app_assoc; reflexivity.
  - rewrite !api_calls_call, <- app_assoc. reflexivity.
Qed.

(** X6: with an account given by [--user], the decorator never asks the
    server who the caller is: after [check_server] it runs the handler on
    the namespace with only [api] added. *)
Theorem X6_explicit_user_skips_identity_query
    (A : Type) (func : M state A) (st : state) (h : api_handle) :
  user (args st) <> PyNone ->
  get_server_api W (token (args st)) (site (args st)) = Ok h ->
  on_check_server h = Ok tt ->
  api_user W func st
  = func {| args := set_api h (args st);
            trace := (trace st ++ [Call check_server])%list |}.
Proof.
  intros Hu Hapi Hcheck. rewrite api_user_eq.
  assert (Hacc : resolved_account h (args st) = Some (user (args st)))
    by (unfold resolved_account; destruct (user (args st)); congruence).
  destruct (resolve_session_ok W _ _ _ Hapi Hcheck Hacc) as [-> _].
  unfold session_calls. destruct (user (args st)) eqn:E; try congruence;
    unfold set_user, set_api; cbn; rewrite <- E; reflexivity.
Qed.

(** X7: an exception raised while building the API client, by
    [check_server], or by the identity query is raised by the decorator
    unchanged: the handler is not run, nothing is logged and no notices
    operation is called. *)
Theorem X7_session_errors_propagate
    (A : Type) (func : M state A) (st : state) (e : exn) :
  get_server_api W (token (args st)) (site (args st)) = Raise e
  \/ (exists h, get_server_api W (token (args st)) (site (args st)) = Ok h
                /\ (on_check_server h = Raise e
                    \/ on_check_server h = Ok tt /\ user (args st) = PyNone
                       /\ on_user h = Raise e)) ->
  exists st',
    (forall B (g : M state B), api_user W g st = (Raise e, st'))
    /\ logged (trace st') = logged (trace st)
    /\ notices_operations (trace st') = notices_operations (trace st).
Proof.
  unfold notices_operations.
  intros [Hapi|(h & Hapi & [Hcheck|(Hcheck & Hu & Hwho)])].
  - exists st. split; [|split; reflexivity].
    intros B g. rewrite api_user_eq.
    unfold resolve_session, bind, gets, answer. rewrite Hapi. reflexivity.
  - eexists. split.
    + intros B g. rewrite api_user_eq.
      unfold resolve_session, bind, gets, answer, setattr, invoke, emit, modify.
      rewrite Hapi. cbn. rewrite Hcheck. reflexivity.
    + cbn. rewrite logged_app, api_calls_app, filter_app. cbn.
      rewrite !app_nil_r. split; reflexivity.
  - eexists. split.
    + intros B g. rewrite api_user_eq.
      unfold resolve_session, bind, gets, answer, setattr, invoke, emit, modify.
      rewrite Hapi. cbn. rewrite Hcheck, Hu, Hwho. reflexivity.
    + cbn. rewrite !logged_app, !api_calls_app, !filter_app. cbn.
      rewrite !app_nil_r. split; reflexivity.
Qed.

(** X8: on any store and for any collaborators, the API calls of [main]
    are exactly these, in this order: nothing at all when the client
    cannot be built; otherwise [check_server], then [user] exactly when the
    check passed and no account was given, then at most one notices
    operation, which is only called after a [check_server] that passed. *)
Theorem X8_call_sequence_of_main (st : state) :
  exists ops,
    api_calls (trace (snd (main W st)))
    = (api_calls (trace st)
       ++ match get_server_api W (token (args st)) (site (args st)) with
          | Raise _ => []
          | Ok h =>
              match on_check_server h, user (args st) with
              | Ok _, PyNone => [check_server; user_]
              | _, _ => [check_server]
              end
          end
       ++ ops)%list
    /\ (ops = []
        \/ exists c h,
             ops = [c] /\ is_notices_operation c = true
             /\ get_server_api W (token (args st)) (site (args st)) = Ok h
             /\ on_check_server h = Ok tt).
Proof.
  unfold main. rewrite api_user_eq.
  destruct (resolve_session_calls st) as (Hcalls & Hok).
  destruct (resolve_session W st) as [[[]|e] st1] eqn:Hs; cbn [fst snd] in *.
  - destruct (main_body_calls st1) as (ops & Hops & Hone).
    exists ops. rewrite Hops, Hcalls, <- app_assoc. split; [reflexivity|].
    destruct Hone as [->|(c & -> & Hc)]; [left; reflexivity|right].
    destruct (Hok st1 eq_refl) as (h & Hapi & Hcheck). exists c, h. auto.
  - exists []. rewrite app_nil_r. split; [exact Hcalls|left; reflexivity].
Qed.

(** X9: once the session is resolved, [main] takes the first branch that
    applies and no other: a truthy payload is created even when [remove]
    or [get] is set; without one, [remove] wins over [get]; with nothing
    set no notices operation is called. *)
Theorem X9_dispatch_priority (st : state) (h : api_handle) (u : pyval) :
  get_server_api W (token (args st)) (site (args st)) = Ok h ->
  on_check_server h = Ok tt ->
  resolved_account h (args st) = Some u ->
  notices_operations (trace (snd (main W st)))
  = (notices_operations (trace st)
     ++ (if truthy (notices (args st))
         then [create_notices u (label (args st)) (notices (args st))]
         else if remove (args st) then [remove_notices u (label (args st))]
         else if get (args st) then [notices_ u (label (args st))]
         else []))%list.
Proof.
  intros Hapi Hcheck Hacc. unfold main, notices_operations. rewrite api_user_eq.
  destruct (resolve_session_ok W _ _ _ Hapi Hcheck Hacc) as [-> _].
  destruct (session_calls_quiet (args st)) as (_ & Hq & _).
  destruct (truthy (notices (args st))) eqn:Hp;
    [|destruct (remove (args st)) eqn:Hr; [|destruct (get (args st)) eqn:Hg]].
  - rewrite (main_body_create _ h) by (try reflexivity; exact Hp).
    cbn [fst snd args trace user label notices set_user set_api].
    rewrite !api_calls_app, !filter_app, Hq, app_nil_r. reflexivity.
  - rewrite (main_body_remove _ h) by (try reflexivity; assumption).
    cbn [fst snd args trace user label notices set_user set_api].
    rewrite !api_calls_app, !filter_app, Hq, app_nil_r. reflexivity.
  - destruct (on_notices h u (label (args st))) as [fetched|e] eqn:Hf.
    + rewrite (main_body_get _ h fetched) by (try reflexivity; assumption).
      cbn [fst snd args trace user label notices set_user set_api].
      rewrite !api_calls_app, !filter_app, Hq, app_nil_r. reflexivity.
    + rewrite (main_body_get_raise _ h e) by (try reflexivity; assumption).
      cbn [fst snd args trace user label notices set_user set_api].
      rewrite !api_calls_app, !filter_app, Hq, app_nil_r. reflexivity.
  - rewrite main_body_idle by assumption.
    cbn [fst snd args trace]. rewrite !api_calls_app, !filter_app, Hq, !app_nil_r.
    reflexivity.
Qed.

(** X10: when [--remove] is supplied on an accepted command line and the
    session resolves to an account, the command calls [remove_notices]
    once, with that account and the label of the command line, calls no
    other notices operation, logs nothing, and ends as that call ends. *)
Theorem X10_remove_is_called_once
    (occs : list occurrence) (st st1 : state) (h : api_handle) (u : pyval) :
  supplied Remove occs = true ->
  parse_args W occs st = (Ok tt, st1) ->
  get_server_api W (token (args st1)) (site (args st1)) = Ok h ->
  on_check_server h = Ok tt ->
  resolved_account h (args st1) = Some u ->
  notices_command W occs st
  = (on_remove_notices h u (last_label "main" occs),
     {| args := set_user u (set_api h (args st1));
        trace := (trace st ++ session_calls (args st1)
                  ++ [Call (remove_notices u (last_label "main" occs))])%list |})
  /\ notices_operations (trace (snd (notices_command W occs st)))
     = (notices_operations (trace st)
        ++ [remove_notices u (last_label "main" occs)])%list
  /\ logged (trace (snd (notices_command W occs st))) = logged (trace st).
Proof.
  intros Hrm Hparse Hapi Hcheck Hacc.
  destruct (parse_args_ok W _ _ _ Hparse) as (Ht & Hone & Hr & _ & Hnone & _).
  pose proof (parsed_label W occs st st1 Hparse) as Hl.
  destruct (resolve_session_ok W _ _ _ Hapi Hcheck Hacc) as [Hs _].
  destruct (session_calls_quiet (args st1)) as (_ & Hq & Hq').
  assert (Hp : notices (args st1) = PyNone).
  { apply Hnone. destruct (supplied Create occs) eqn:E; [|reflexivity].
    discriminate (Hone Create Remove E Hrm). }
  assert (Hrun : notices_command W occs st
                 = (on_remove_notices h u (last_label "main" occs),
                    {| args := set_user u (set_api h (args st1));
                       trace := (trace st ++ session_calls (args st1)
                                 ++ [Call (remove_notices u (last_label "main" occs))])%list |})).
  { rewrite notices_command_eq, Hparse. unfold main. rewrite api_user_eq, Hs.
    rewrite (main_body_remove _ h); cbn [args trace]; try reflexivity.
    - cbn. rewrite Ht, Hl, <- app_assoc. reflexivity.
    - cbn. rewrite Hp. reflexivity.
    - cbn. rewrite Hr. exact Hrm. }
  rewrite Hrun. cbn [snd trace]. unfold notices_operations.
  rewrite !logged_app, !api_calls_app, !filter_app, Hq, Hq'. cbn.
  rewrite !app_nil_r. repeat split.
Qed.

(** X11: when [--get] is supplied and the server refuses the fetch, the
    exception leaves the command unchanged and nothing is logged. *)
Theorem X11_failed_fetch_prints_nothing
    (occs : list occurrence) (st st1 : state) (h : api_handle) (u : pyval) (e : exn) :
  supplied Get occs = true ->
  parse_args W occs st = (Ok tt, st1) ->
  get_server_api W (token (args st1)) (site (args st1)) = Ok h ->
  on_check_server h = Ok tt ->
  resolved_account h (args st1) = Some u ->
  on_notices h u (label (args st1)) = Raise e ->
  fst (notices_command W occs st) = Raise e
  /\ logged (trace (snd (notices_command W occs st))) = logged (trace st)
  /\ notices_operations (trace (snd (notices_command W occs st)))
     = (notices_operations (trace st) ++ [notices_ u (label (args st1))])%list.
Proof.
  intros Hget Hparse Hapi Hcheck Hacc Hfetch.
  destruct (parse_args_ok W _ _ _ Hparse) as (Ht & Hone & Hr & Hg & Hnone & _).
  destruct (resolve_session_ok W _ _ _ Hapi Hcheck Hacc) as [Hs _].
  destruct (session_calls_quiet (args st1)) as (_ & Hq & Hq').
  assert (Hrm : remove (args st1) = false).
  { rewrite Hr. destruct (supplied Remove occs) eqn:E; [|reflexivity].
    discriminate (Hone Remove Get E Hget). }
  assert (Hp : notices (args st1) = PyNone).
  { apply Hnone. destruct (supplied Create occs) eqn:E; [|reflexivity].
    discriminate (Hone Create Get E Hget). }
  rewrite notices_command_eq, Hparse. unfold main. rewrite api_user_eq, Hs.
  rewrite (main_body_get_raise _ h e); cbn [args trace fst snd]; try reflexivity.
  - unfold notices_operations.
    rewrite !logged_app, !api_calls_app, !filter_app, Hq, Hq', Ht. cbn.
    rewrite !app_nil_r. repeat split.
  - cbn. rewrite Hp. reflexivity.
  - cbn. exact Hrm.
  - cbn. rewrite Hg. exact Hget.
  - cbn. exact Hfetch.
Qed.

End Dispatcher.

(** *** The statements at concrete inputs *)

Import Samples.

Lemma X1_witness_overlong_argument :
  NoticesAction_call name_limit (PyStr (letters 256)) (fresh None None)
  = (Raise (OSError "[Errno 36] File name too long"), fresh None None).
Proof.
  destruct (X1_normalizer_outcomes name_limit (PyStr (letters 256)) (fresh None None))
    as [_ H].
  apply (H (letters 256)); reflexivity.
Defined.

(** A valid JSON literal of 256 digits on a system whose file names hold at
    most 255 bytes: it does not normalise, and [--create] with it is
    refused with the [OSError] of the existence test. *)
Lemma overlong_json_literal_is_refused :
  json_loads name_limit_numbers (ones 256) = Ok (PyInt (ones_value 256))
  /\ normalized name_limit_numbers (ones 256) = None
  /\ parse_args name_limit_numbers [OptCreate (ones 256)] (fresh None None)
     = (Raise (OSError "[Errno 36] File name too long"), fresh None None).
Proof. repeat split. Qed.

Lemma X2_witness_broken_file :
  NoticesAction_call with_broken_file (PyStr "broken.json") (fresh None None)
  = (Raise (SystemExit 1),
     {| args := fresh_namespace None None; trace := [Log logger ERROR invalid_json] |}).
Proof.
  apply (X2_file_with_invalid_json_exits_1 with_broken_file "broken.json" "{oops"
           "Expecting value" (fresh None None) eq_refl eq_refl eq_refl).
Defined.

Lemma X3_witness_same_action_twice :
  exists st1, parse_args bare [OptGet; OptLabel "dev"; OptGet] (fresh None None) = (Ok tt, st1).
Proof.
  apply (X3_accepted_command_lines bare [OptGet; OptLabel "dev"; OptGet] (fresh None None)).
  split.
  - intros [] []; cbn; congruence.
  - intros v Hv. repeat (apply elem_of_cons in Hv as [Hv|Hv]; [discriminate Hv|]).
    inversion Hv.
Defined.

Lemma X4_witness_not_json :
  notices_command bare [OptCreate "not json"] (fresh None None)
  = (Raise (SystemExit 1),
     {| args := fresh_namespace None None; trace := [Log logger ERROR invalid_json] |}).
Proof.
  apply (X4_parse_failure_reaches_no_api bare [OptCreate "not json"] (fresh None None)).
  reflexivity.
Defined.

Lemma X5_witness_last_label_wins :
  label (args (snd (parse_args bare [OptLabel "dev"; OptUser "acme"; OptLabel "beta"; OptGet]
                      (fresh None None)))) = "beta"
  /\ user (args (snd (parse_args bare [OptLabel "dev"; OptUser "acme"; OptLabel "beta"; OptGet]
                        (fresh None None)))) = PyStr "acme".
Proof.
  edestruct (X5_parsed_namespace bare [OptLabel "dev"; OptUser "acme"; OptLabel "beta"; OptGet]
               (fresh None None)) as (Hl & Hu & _); [reflexivity|].
  split; [exact Hl|exact Hu].
Defined.

Lemma X6_witness_user_given :
  api_user bare_anonymous main_body
    {| args := set_user (PyStr "acme") (fresh_namespace None None); trace := [] |}
  = (Ok tt,
     {| args := set_api anonymous_server (set_user (PyStr "acme") (fresh_namespace None None));
        trace := [Call check_server] |}).
Proof.
  rewrite (X6_explicit_user_skips_identity_query bare_anonymous unit main_body
             {| args := set_user (PyStr "acme") (fresh_namespace None None); trace := [] |}
             anonymous_server);
    [reflexivity | discriminate | reflexivity | reflexivity].
Defined.

Lemma X7_witness_unreachable :
  exists st',
    (forall B (g : M state B),
        api_user unreachable g (fresh None None)
        = (Raise (OtherException "ConnectionError" "unreachable"), st'))
    /\ logged (trace st') = logged (trace (fresh None None))
    /\ notices_operations (trace st') = notices_operations (trace (fresh None None)).
Proof.
  apply (X7_session_errors_propagate unreachable unit main_body (fresh None None)).
  left. reflexivity.
Defined.

Lemma X9_witness_payload_wins_over_flags :
  notices_operations
    (trace (snd (main bare
      {| args := set_get true (set_remove true
                   (set_notices (PyDict [("a", PyInt 1)]) (fresh_namespace None None)));
         trace := [] |})))
  = [create_notices (PyStr "alice") "main" (PyDict [("a", PyInt 1)])].
Proof.
  apply (X9_dispatch_priority bare
           {| args := set_get true (set_remove true
                        (set_notices (PyDict [("a", PyInt 1)]) (fresh_namespace None None)));
              trace := [] |} server (PyStr "alice") eq_refl eq_refl eq_refl).
Defined.

Lemma X10_witness_remove_main :
  notices_operations (trace (snd (notices_command bare [OptRemove] (fresh None None))))
  = [remove_notices (PyStr "alice") "main"].
Proof.
  edestruct (X10_remove_is_called_once bare [OptRemove] (fresh None None))
    as (_ & H & _);
    [reflexivity | reflexivity | reflexivity | reflexivity | reflexivity | exact H].
Defined.

Lemma X11_witness_refused_fetch :
  fst (notices_command bare_refusing [OptGet] (fresh None None))
  = Raise (OtherException "Unauthorized" "401")
  /\ logged (trace (snd (notices_command bare_refusing [OptGet] (fresh None None)))) = [].
Proof.
  edestruct (X11_failed_fetch_prints_nothing bare_refusing [OptGet] (fresh None None))
    as (H1 & H2 & _);
    [reflexivity | reflexivity | reflexivity | reflexivity | reflexivity | reflexivity |].
  split; [exact H1|exact H2].
Defined.

End NoticesMore.


(** * Further properties of the legacy bridge *)

Module PluginsMore.
Import Plugins PluginsFacts.

Section Bridge.
Context (binstar_main : list string -> bool -> result unit).
Context (environ : string -> option string).
Context (parser : ArgumentParser).
Context (deprecated_text : string).

Local Abbreviation forwarded p := (filter (fun arg => arg <> "org") (drop 1 (argv p))).
Local Abbreviation passthrough := (_subcommand binstar_main).
Local Abbreviation load :=
  (load_legacy_subcommands binstar_main environ parser deprecated_text).
Local Abbreviation mount_one :=
  (mount_legacy binstar_main environ parser deprecated_text).

(** X12: the passthrough calls the legacy dispatcher exactly once, with
    plugin main disabled, and ends as that call ends.  What it forwards is
    the process arguments after the program name without those equal to
    [org]: a sublist in the original order, holding exactly the arguments
    that differ from [org], and all of them when none is [org]. *)
Theorem X12_passthrough_forwards_other_arguments (p : process) :
  fst (passthrough p) = binstar_main (forwarded p) false
  /\ dispatched (trace (snd (passthrough p)))
     = (dispatched (trace p) ++ [(forwarded p, false)])%list
  /\ warnings (trace (snd (passthrough p))) = warnings (trace p)
  /\ argv (snd (passthrough p)) = argv p
  /\ forwarded p `sublist_of` drop 1 (argv p)
  /\ (forall arg, arg ∈ forwarded p <-> arg <> "org" /\ arg ∈ drop 1 (argv p))
  /\ ("org" ∉ drop 1 (argv p) -> forwarded p = drop 1 (argv p)).
Proof.
  rewrite _subcommand_eq. cbn [fst snd argv trace].
  rewrite dispatched_app, warnings_app. cbn. rewrite app_nil_r.
  repeat (split; [reflexivity|]). apply forwarded_spec.
Qed.

(** *** Mounting *)

Lemma mount_legacy_app registry name :
  mount_one registry name = (registry ++ mount_one [] name)%list.
Proof.
  unfold mount_legacy, _mount_subcommand, _load_new_subcommand.
  repeat match goal with
         | |- context [if ?b then _ else _] => destruct b
         end;
    rewrite <- ?app_assoc; reflexivity.
Qed.

Lemma mount_legacy_name name :
  Forall (fun m => mount_name m = name) (mount_one [] name).
Proof.
  destruct (mount_legacy_names binstar_main environ parser deprecated_text [] name)
    as (added & -> & Hnames). exact Hnames.
Qed.

Lemma foldl_mount names : forall registry,
  foldl mount_one registry names
  = (registry ++ concat (map (mount_one []) names))%list.
Proof.
  induction names as [|n names IH]; intros registry.
  - cbn. rewrite app_nil_r. reflexivity.
  - cbn [foldl map concat]. rewrite IH, mount_legacy_app, <- app_assoc. reflexivity.
Qed.

Lemma load_Forall (P : mount -> Prop) :
  (forall name, name ∈ ALL_SUBCOMMANDS -> Forall P (mount_one [] name)) ->
  Forall P (load []).
Proof.
  intros Hall. unfold load_legacy_subcommands.
  destruct (getenv_flag environ "ANACONDA_CLIENT_FORCE_STANDALONE"); [constructor|].
  rewrite foldl_mount, app_nil_l.
  assert (Hin : forall n, n ∈ elements ALL_SUBCOMMANDS -> n ∈ ALL_SUBCOMMANDS)
    by (intros n; apply elem_of_elements).
  induction (elements ALL_SUBCOMMANDS) as [|n l IH]; [constructor|].
  cbn [map concat]. apply Forall_app. split.
  - apply Hall, Hin. left.
  - apply IH. intros m Hm. apply Hin. right. exact Hm.
Qed.

(** X13: every registration the bridge makes accepts extra arguments and
    ignores unknown options, whether it is a legacy passthrough or a new
    style subcommand. *)
Theorem X13_every_mount_lets_unknown_options_through :
  Forall (fun m => allow_extra_args (mount_settings m) = true
                   /\ ignore_unknown_options (mount_settings m) = true)
         (load []).
Proof.
  apply load_Forall. intros name _.
  unfold mount_legacy, _mount_subcommand, _load_new_subcommand.
  repeat match goal with
         | |- context [if ?b then _ else _] => destruct b
         end;
    simpl; repeat first [apply Forall_cons; split | apply List.Forall_nil];
    split; reflexivity.
Qed.

(** X15: when [ANACONDA_CLIENT_FORCE_STANDALONE] is set to any non-empty
    text, [0] and [false] included, nothing is mounted. *)
Theorem X15_standalone_switch (registry : list mount) (value : string) :
  environ "ANACONDA_CLIENT_FORCE_STANDALONE" = Some value ->
  value <> EmptyString ->
  load registry = registry.
Proof.
  intros Henv Hvalue. unfold load_legacy_subcommands, getenv_flag.
  rewrite Henv. destruct value; [contradiction|reflexivity].
Qed.

Lemma filter_none {A} (P : A -> Prop) `{!forall x, Decision (P x)} (l : list A) :
  Forall (fun x => ~ P x) l -> filter P l = [].
Proof.
  induction 1 as [|x l Hx _ IH]; [reflexivity|].
  rewrite filter_cons_False by exact Hx. exact IH.
Qed.

Lemma mounts_of_app name target l1 l2 :
  mounts_of name target (l1 ++ l2)
  = (mounts_of name target l1 ++ mounts_of name target l2)%list.
Proof. apply filter_app. Qed.

Lemma mounts_of_other name other target :
  other <> name -> mounts_of name target (mount_one [] other) = [].
Proof.
  intros Hne. apply filter_none.
  eapply Forall_impl; [apply mount_legacy_name|].
  intros m Hm [Hn _]. congruence.
Qed.

Lemma mounts_of_concat name target names :
  NoDup names ->
  mounts_of name target (concat (map (mount_one []) names))
  = if bool_decide (name ∈ names) then mounts_of name target (mount_one [] name) else [].
Proof.
  induction 1 as [|n names Hn _ IH]; [reflexivity|].
  cbn [map concat]. rewrite mounts_of_app, IH.
  destruct (decide (n = name)) as [->|Hne].
  - rewrite (bool_decide_eq_false_2 _ Hn), app_nil_r.
    rewrite bool_decide_eq_true_2 by left. reflexivity.
  - rewrite (mounts_of_other _ _ _ Hne), app_nil_l.
    rewrite (bool_decide_ext (name ∈ n :: names) (name ∈ names)); [reflexivity|].
    rewrite elem_of_cons. split; [intros [Heq|Hin]; [congruence|exact Hin]|auto].
Qed.

Ltac filter_mounts :=
  unfold mounts_of; rewrite ?filter_app;
  repeat first
    [ rewrite filter_cons_True by (split; reflexivity)
    | rewrite filter_cons_False
        by (let H := fresh in intros [_ H]; cbn in H; discriminate H)
    | rewrite filter_nil ].

Lemma mounts_of_self name :
  length (mounts_of name app (mount_one [] name)) = 1%nat
  /\ length (mounts_of name main_app (mount_one [] name))
     = (if bool_decide (name ∉ ({[ "login"; "logout"; "whoami" ]} : gset string))
        then 1 else 0)%nat.
Proof.
  unfold mount_legacy, _mount_subcommand, _load_new_subcommand.
  destruct (bool_decide (name ∉ ({[ "login"; "logout"; "whoami" ]} : gset string)));
    cbn [negb];
    repeat match goal with
           | |- context [if ?b then _ else _] => destruct b
           end;
    split; filter_mounts; reflexivity.
Qed.

(** X16: unless the bridge is switched off, every subcommand of
    [ALL_SUBCOMMANDS] is mounted exactly once on the [org] application, and
    exactly once on the main application unless it is [login], [logout] or
    [whoami], which are not mounted there; no other name is mounted. *)
Theorem X16_every_subcommand_is_mounted_once (name : string) :
  getenv_flag environ "ANACONDA_CLIENT_FORCE_STANDALONE" = false ->
  length (mounts_of name app (load []))
  = (if bool_decide (name ∈ ALL_SUBCOMMANDS) then 1 else 0)%nat
  /\ length (mounts_of name main_app (load []))
     = (if bool_decide (name ∈ ALL_SUBCOMMANDS)
           && bool_decide (name ∉ ({[ "login"; "logout"; "whoami" ]} : gset string))
        then 1 else 0)%nat.
Proof.
  intros Hflag. unfold load_legacy_subcommands. rewrite Hflag.
  rewrite foldl_mount, app_nil_l.
  rewrite !mounts_of_concat by apply NoDup_elements.
  rewrite (bool_decide_ext (name ∈ elements ALL_SUBCOMMANDS) (name ∈ ALL_SUBCOMMANDS))
    by apply elem_of_elements.
  destruct (bool_decide (name ∈ ALL_SUBCOMMANDS)); [|split; reflexivity].
  apply mounts_of_self.
Qed.

(** X17: without [ANACONDA_CLI_FORCE_NEW] (unset, or set to the empty
    text) every registration is a legacy one, and its callable is the
    passthrough, bare or under the deprecation wrapper of its own name. *)
Theorem X17_without_the_flag_all_mounts_are_legacy :
  getenv_flag environ "ANACONDA_CLI_FORCE_NEW" = false ->
  Forall (fun m => mount_module m = None
                   /\ (mount_func m = Some passthrough
                       \/ mount_func m = Some (_deprecate (mount_name m) passthrough)))
         (load []).
Proof.
  intros Hflag. apply load_Forall. intros name _.
  unfold mount_legacy, _mount_subcommand. rewrite Hflag. cbn [andb].
  repeat match goal with
         | |- context [if ?b then _ else _] => destruct b
         end;
    simpl; repeat first [apply Forall_cons; split | apply List.Forall_nil];
    (split; [reflexivity|]); first [left; reflexivity | right; reflexivity].
Qed.

(** X18: with [ANACONDA_CLI_FORCE_NEW] set, a subcommand that has a new
    CLI is mounted through [mount_subcommand] of its own module ([channel]
    for [label], [authorizations] for [auth]) and gets no passthrough; the
    subcommands without a new CLI stay legacy registrations. *)
Theorem X18_with_the_flag_new_subcommands_use_their_module :
  getenv_flag environ "ANACONDA_CLI_FORCE_NEW" = true ->
  Forall (fun m =>
            if bool_decide (mount_name m ∈ SUBCOMMANDS_WITH_NEW_CLI)
            then mount_func m = None
                 /\ mount_module m
                    = Some (if String.eqb (mount_name m) "label" then "channel"
                            else if String.eqb (mount_name m) "auth" then "authorizations"
                            else mount_name m)
            else mount_module m = None)
         (load []).
Proof.
  intros Hflag. apply load_Forall. intros name _.
  unfold mount_legacy, _mount_subcommand, _load_new_subcommand. rewrite Hflag.
  destruct (bool_decide (name ∈ SUBCOMMANDS_WITH_NEW_CLI)) eqn:Hnew;
    [apply bool_decide_eq_true in Hnew|apply bool_decide_eq_false in Hnew];
    cbn [andb];
    destruct (String.eqb name "label") eqn:El;
    destruct (String.eqb name "auth") eqn:Ea;
    repeat match goal with
           | |- context [if ?b then _ else _] => destruct b
           end;
    cbn [Datatypes.app];
    repeat first [apply Forall_cons; split | apply List.Forall_nil];
    cbn [mount_name mount_func mount_module]; case_bool_decide;
    try contradiction; rewrite ?El, ?Ea; auto.
Qed.

Lemma visible_on_main name :
  bool_decide (name ∉ NON_HIDDEN_SUBCOMMANDS) = false <-> name = "upload".
Proof.
  rewrite bool_decide_eq_false. unfold NON_HIDDEN_SUBCOMMANDS. split.
  - intros H. destruct (decide (name = "upload")) as [|Hne]; [assumption|].
    destruct H. intros Hin. apply elem_of_singleton in Hin. contradiction.
  - intros -> H. apply H, elem_of_singleton. reflexivity.
Qed.

(** X19: a registration on the [org] application is never hidden; on the
    main application every registration is hidden except the one of
    [upload]. *)
Theorem X19_only_upload_is_visible_on_main :
  Forall (fun m => match mount_target m with
                   | app => mount_hidden m = false
                   | main_app => mount_hidden m = false <-> mount_name m = "upload"
                   end)
         (load []).
Proof.
  apply load_Forall. intros name _.
  unfold mount_legacy, _mount_subcommand, _load_new_subcommand.
  pose proof (visible_on_main name) as Hvis.
  destruct (bool_decide (name ∉ NON_HIDDEN_SUBCOMMANDS));
    repeat match goal with
           | |- context [if ?b then _ else _] => destruct b
           end;
    simpl; repeat first [apply Forall_cons; split | apply List.Forall_nil];
    first [reflexivity | exact Hvis].
Qed.

(** X20: running what the bridge mounted for a name outside the deprecated
    set never logs a warning. *)
Theorem X20_only_deprecated_names_warn :
  Forall (fun m => mount_name m ∉ DEPRECATED_SUBCOMMANDS ->
                   forall func p, mount_func m = Some func ->
                                  warnings (trace (snd (func p))) = warnings (trace p))
         (load []).
Proof.
  apply load_Forall. intros name _.
  assert (Hquiet : forall p, warnings (trace (snd (passthrough p))) = warnings (trace p)).
  { intros p. rewrite _subcommand_eq. cbn [snd trace]. rewrite warnings_app.
    apply app_nil_r. }
  unfold mount_legacy, _mount_subcommand, _load_new_subcommand.
  destruct (bool_decide (name ∈ DEPRECATED_SUBCOMMANDS)) eqn:Hdep;
    repeat match goal with
           | |- context [if ?b then _ else _] => destruct b
           end;
    simpl; repeat first [apply Forall_cons; split | apply List.Forall_nil];
    intros Hn func p Hf;
    try discriminate Hf;
    try (apply bool_decide_eq_true in Hdep; contradiction);
    injection Hf as <-; apply Hquiet.
Qed.

End Bridge.

(** *** Help text and the token callback *)

Lemma lstrip_clean s : leading_space (lstrip s) = false.
Proof.
  induction s as [|c s IH]; [reflexivity|].
  cbn [lstrip]. destruct (isspace c) eqn:E; [exact IH|]. cbn. exact E.
Qed.

Lemma rstrip_clean s : trailing_space (rstrip s) = false.
Proof.
  induction s as [|c s IH]; [reflexivity|].
  cbn [rstrip]. destruct (rstrip s) as [|d kept].
  - destruct (isspace c) eqn:E; [reflexivity|]. cbn. exact E.
  - exact IH.
Qed.

Lemma rstrip_keeps_head s : leading_space s = false -> leading_space (rstrip s) = false.
Proof.
  destruct s as [|c s]; [reflexivity|]. cbn [leading_space rstrip]. intros E.
  destruct (rstrip s); [rewrite E|]; cbn; exact E.
Qed.

Lemma lstrip_fixed s : leading_space s = false -> lstrip s = s.
Proof. destruct s as [|c s]; [reflexivity|]. cbn. intros ->. reflexivity. Qed.

Lemma rstrip_fixed s : trailing_space s = false -> rstrip s = s.
Proof.
  induction s as [|c s IH]; [reflexivity|].
  cbn [trailing_space rstrip]. destruct s as [|d s'].
  - cbn. intros ->. reflexivity.
  - intros H. rewrite (IH H). reflexivity.
Qed.

Lemma strip_clean s :
  leading_space (strip s) = false /\ trailing_space (strip s) = false.
Proof.
  unfold strip. split; [apply rstrip_keeps_head, lstrip_clean|apply rstrip_clean].
Qed.

(** X21: the help text taken from the legacy parser never starts or ends
    with white space, stripping it again changes nothing, and it is empty
    when the parser has no subparsers, no choices, no parser of that name,
    or that parser has no description. *)
Theorem X21_help_text_is_stripped (parser : ArgumentParser) (name : string) :
  leading_space (_get_help_text parser name) = false
  /\ trailing_space (_get_help_text parser name) = false
  /\ strip (_get_help_text parser name) = _get_help_text parser name
  /\ ((forall choices, _subparsers parser = Some (Some choices) ->
       choices !! name = None \/ choices !! name = Some None) ->
      _get_help_text parser name = EmptyString).
Proof.
  assert (Hclean : leading_space (_get_help_text parser name) = false
                   /\ trailing_space (_get_help_text parser name) = false).
  { unfold _get_help_text.
    destruct (_subparsers parser) as [[choices|]|]; try (split; reflexivity).
    destruct (choices !! name) as [[description|]|]; try (split; reflexivity).
    apply strip_clean. }
  destruct Hclean as [Hl Ht]. repeat split; try assumption.
  - unfold strip. rewrite (lstrip_fixed _ Hl). apply rstrip_fixed, Ht.
  - unfold _get_help_text. intros Hmissing.
    destruct (_subparsers parser) as [[choices|]|]; try reflexivity.
    destruct (Hmissing choices eq_refl) as [-> | ->]; reflexivity.
Qed.

(** X22: the token callback stores a non-empty token under the key
    [token] of [ctx.obj] and leaves every other key as it was; for an
    absent or empty token it returns without touching [ctx.obj], so a
    token stored before stays, and it does not raise even when [ctx.obj]
    is [None]. *)
Theorem X22_token_callback
    (obj : option (gmap string pyval)) (d : gmap string pyval) (tok : string) :
  (tok <> EmptyString ->
   exists d', main_callback (Some d) (Some tok) = Ok (Some d')
              /\ d' !! "token" = Some (PyStr tok)
              /\ forall key, key <> "token" -> d' !! key = d !! key)
  /\ main_callback obj None = Ok obj
  /\ main_callback obj (Some EmptyString) = Ok obj.
Proof.
  split; [|split; reflexivity].
  intros Htok. destruct tok as [|c rest]; [contradiction|].
  eexists. split; [reflexivity|]. split.
  - apply lookup_insert_eq.
  - intros key Hkey. apply lookup_insert_ne. congruence.
Qed.

(** *** The statements at concrete inputs *)

Lemma X12_witness_no_org_argument :
  filter (fun arg => arg <> "org") (drop 1 ["anaconda"; "upload"; "--force"; "pkg.tar.bz2"])
  = ["upload"; "--force"; "pkg.tar.bz2"].
Proof.
  destruct (X12_passthrough_forwards_other_arguments Samples.dispatcher_ok
              {| argv := ["anaconda"; "upload"; "--force"; "pkg.tar.bz2"]; trace := [] |})
    as (_ & _ & _ & _ & _ & _ & H).
  apply H. cbn. intros Hin.
  repeat (apply elem_of_cons in Hin as [Hin|Hin]; [discriminate Hin|]).
  inversion Hin.
Defined.

Lemma X15_witness_standalone_0 :
  load_legacy_subcommands Samples.dispatcher_ok Samples.environ_standalone
    Samples.legacy_parser "(deprecated)" []
  = [].
Proof.
  apply (X15_standalone_switch Samples.dispatcher_ok Samples.environ_standalone
           Samples.legacy_parser "(deprecated)" [] "0"); [reflexivity|discriminate].
Defined.

Lemma X16_witness_upload_and_whoami :
  (length (mounts_of "upload" app
             (load_legacy_subcommands Samples.dispatcher_ok Samples.environ_unset
                Samples.legacy_parser "(deprecated)" [])) = 1
   /\ length (mounts_of "upload" main_app
                (load_legacy_subcommands Samples.dispatcher_ok Samples.environ_unset
                   Samples.legacy_parser "(deprecated)" [])) = 1)%nat
  /\ (length (mounts_of "whoami" app
                (load_legacy_subcommands Samples.dispatcher_ok Samples.environ_unset
                   Samples.legacy_parser "(deprecated)" [])) = 1
      /\ length (mounts_of "whoami" main_app
                   (load_legacy_subcommands Samples.dispatcher_ok Samples.environ_unset
                      Samples.legacy_parser "(deprecated)" [])) = 0)%nat.
Proof.
  split.
  - exact (X16_every_subcommand_is_mounted_once Samples.dispatcher_ok Samples.environ_unset
             Samples.legacy_parser "(deprecated)" "upload" eq_refl).
  - exact (X16_every_subcommand_is_mounted_once Samples.dispatcher_ok Samples.environ_unset
             Samples.legacy_parser "(deprecated)" "whoami" eq_refl).
Defined.

Lemma X17_witness_flag_unset :
  Forall (fun m => mount_module m = None
                   /\ (mount_func m = Some (_subcommand Samples.dispatcher_ok)
                       \/ mount_func m
                          = Some (_deprecate (mount_name m) (_subcommand Samples.dispatcher_ok))))
         (load_legacy_subcommands Samples.dispatcher_ok Samples.environ_unset
            Samples.legacy_parser "(deprecated)" []).
Proof.
  apply (X17_without_the_flag_all_mounts_are_legacy Samples.dispatcher_ok
           Samples.environ_unset Samples.legacy_parser "(deprecated)").
  reflexivity.
Defined.

Lemma X18_witness_flag_set :
  Forall (fun m =>
            if bool_decide (mount_name m ∈ SUBCOMMANDS_WITH_NEW_CLI)
            then mount_func m = None
                 /\ mount_module m
                    = Some (if String.eqb (mount_name m) "label" then "channel"
                            else if String.eqb (mount_name m) "auth" then "authorizations"
                            else mount_name m)
            else mount_module m = None)
         (load_legacy_subcommands Samples.dispatcher_ok Samples.environ_force_new
            Samples.legacy_parser "(deprecated)" []).
Proof.
  apply (X18_with_the_flag_new_subcommands_use_their_module Samples.dispatcher_ok
           Samples.environ_force_new Samples.legacy_parser "(deprecated)").
  reflexivity.
Defined.

Lemma X21_witness_unknown_name :
  _get_help_text Samples.legacy_parser "search" = EmptyString.
Proof.
  destruct (X21_help_text_is_stripped Samples.legacy_parser "search") as (_ & _ & _ & H).
  apply H. intros choices [= <-]. left. vm_compute. reflexivity.
Defined.

Lemma X22_witness_token :
  exists d', main_callback (Some ∅) (Some "abc") = Ok (Some d')
             /\ d' !! "token" = Some (PyStr "abc")
             /\ forall key, key <> "token" -> d' !! key = (∅ : gmap string pyval) !! key.
Proof.
  destruct (X22_token_callback None ∅ "abc") as (H & _).
  apply H. discriminate.
Defined.

End PluginsMore.
